(** * TypoNoMo: the typo-URL detection engine of [content.js]

    A shallow embedding of the parts of [content.js] that carry the
    algorithmic content of the extension:

    - [svmjs]: the SMO-trained support vector machine (training, margins,
      prediction, [getWeights], [toJSON]/[fromJSON]) with its random helpers;
    - [createWordDict]: the word dictionary read from a text;
    - [Prefiltering]: the candidate filter on a raw token;
    - [calculateFeatures]: the feature extractor, with the name-server
      lookup of [DNS.Query];
    - [TweetButtonClicked]: the collection of the tokens from the editor, the
      pass over them, [predictTypos] and the choice of the dialog.

    JavaScript numbers are modelled by [JS.num]: finite doubles are idealised
    as exact rationals, next to the two infinities and NaN.  [undefined] is
    modelled by [None] wherever the program can observe it (absent option or
    JSON fields, fields of a fresh object, reads past the end of an array);
    arithmetic coerces it to NaN, as ToNumber does.

    A call returns, throws, or runs on: the two [while] loops of [train] are
    given fuel.  [Math.exp] and the successive results of [Math.random()] are
    parameters of the machine; regular expressions built at run time,
    [isNaN] and the answer of the lookup service are parameters of the
    detection. *)

From Stdlib Require Import ZArith QArith Qround Qabs Lia Lqa String Ascii Bool.
From stdpp Require Import base list.

(** ** JavaScript numbers *)

Module JS.

Local Open Scope Q_scope.

Inductive num : Type :=
| NaN
| PInf
| NInf
| Fin (q : Q).

Definition of_nat (n : nat) : num := Fin (inject_Z (Z.of_nat n)).

(** ToNumber on a value that is a number or [undefined]. *)
Definition ToNumber (v : option num) : num :=
  match v with
  | Some x => x
  | None => NaN
  end.

Definition neg (a : num) : num :=
  match a with
  | NaN => NaN
  | PInf => NInf
  | NInf => PInf
  | Fin q => Fin (- q)
  end.

Definition add (a b : num) : num :=
  match a, b with
  | NaN, _ | _, NaN => NaN
  | PInf, NInf | NInf, PInf => NaN
  | PInf, _ | _, PInf => PInf
  | NInf, _ | _, NInf => NInf
  | Fin x, Fin y => Fin (x + y)
  end.

Definition sub (a b : num) : num := add a (neg b).

(** An infinity of sign [pos] multiplied by the finite [q]. *)
Definition scale_inf (pos : bool) (q : Q) : num :=
  match q ?= 0 with
  | Eq => NaN
  | Gt => if pos then PInf else NInf
  | Lt => if pos then NInf else PInf
  end.

Definition mul (a b : num) : num :=
  match a, b with
  | NaN, _ | _, NaN => NaN
  | PInf, PInf | NInf, NInf => PInf
  | PInf, NInf | NInf, PInf => NInf
  | PInf, Fin q | Fin q, PInf => scale_inf true q
  | NInf, Fin q | Fin q, NInf => scale_inf false q
  | Fin x, Fin y => Fin (x * y)
  end.

(** Division; a zero divisor stands for +0 (the model has no signed zero). *)
Definition div (a b : num) : num :=
  match a, b with
  | NaN, _ | _, NaN => NaN
  | (PInf | NInf), (PInf | NInf) => NaN
  | Fin _, (PInf | NInf) => Fin 0
  | PInf, Fin y => match y ?= 0 with Lt => NInf | _ => PInf end
  | NInf, Fin y => match y ?= 0 with Lt => PInf | _ => NInf end
  | Fin x, Fin y =>
      match y ?= 0 with
      | Eq => match x ?= 0 with Eq => NaN | Gt => PInf | Lt => NInf end
      | _ => Fin (x / y)
      end
  end.

(** [a < b]; every comparison with NaN is false. *)
Definition lt (a b : num) : bool :=
  match a, b with
  | NaN, _ | _, NaN => false
  | _, NInf => false
  | NInf, _ => true
  | PInf, _ => false
  | Fin _, PInf => true
  | Fin x, Fin y => match x ?= y with Lt => true | _ => false end
  end.

Definition gt (a b : num) : bool := lt b a.

(** [a <= b]. *)
Definition le (a b : num) : bool :=
  match a, b with
  | NaN, _ | _, NaN => false
  | NInf, _ => true
  | _, PInf => true
  | _, NInf => false
  | PInf, _ => false
  | Fin x, Fin y => match x ?= y with Gt => false | _ => true end
  end.

Definition ge (a b : num) : bool := le b a.

(** [a === b] on numbers. *)
Definition strict_eq (a b : num) : bool :=
  match a, b with
  | PInf, PInf | NInf, NInf => true
  | Fin x, Fin y => Qeq_bool x y
  | _, _ => false
  end.

(** [a === b] on values that are numbers or [undefined]. *)
Definition strict_eq_val (a b : option num) : bool :=
  match a, b with
  | None, None => true
  | Some x, Some y => strict_eq x y
  | _, _ => false
  end.

Definition Math_abs (a : num) : num :=
  match a with
  | NaN => NaN
  | PInf | NInf => PInf
  | Fin q => Fin (Qabs q)
  end.

Definition Math_max (a b : num) : num :=
  match a, b with
  | NaN, _ | _, NaN => NaN
  | _, _ => if lt a b then b else a
  end.

Definition Math_min (a b : num) : num :=
  match a, b with
  | NaN, _ | _, NaN => NaN
  | _, _ => if lt b a then b else a
  end.

(** Truthiness of a number: 0 and NaN are falsy. *)
Definition truthy (a : num) : bool :=
  match a with
  | NaN => false
  | PInf | NInf => true
  | Fin q => negb (Qeq_bool q 0)
  end.

(** [v || d] for an optional numeric setting [v] and a default [d]. *)
Definition or_default (v : option num) (d : num) : num :=
  match v with
  | Some x => if truthy x then x else d
  | None => d
  end.

(** [Math.random()] returns a number of [[0, 1)].  A draw [(a, g)] stands for
    [a / (a + g + 1)]; every rational of the interval is of this form, and
    nothing else is. *)
Record draw : Type := Draw { draw_num : nat; draw_gap : nat }.

Definition draw_value (d : draw) : Q :=
  Z.of_nat (draw_num d) # Pos.of_succ_nat (draw_num d + draw_gap d).

End JS.

(** ** Outcomes of a call

    A call returns, throws, or is still running when the fuel of the model
    is used up. *)

Inductive error : Type :=
| TypeError
| SyntaxError.

Inductive outcome (A : Type) : Type :=
| Return (a : A)
| Throw (e : error)
| OutOfFuel.

Arguments Return {A} a.
Arguments Throw {A} e.
Arguments OutOfFuel {A}.

Definition bind {A B : Type} (m : outcome A) (k : A -> outcome B) : outcome B :=
  match m with
  | Return a => k a
  | Throw e => Throw e
  | OutOfFuel => OutOfFuel
  end.

Notation "'let*' x ':=' m 'in' k" := (bind m (fun x => k))
  (at level 10, x name, m at level 100, k at level 200).
Notation "'let*' ' p ':=' m 'in' k" := (bind m (fun x => match x with p => k end))
  (at level 10, p pattern, m at level 100, k at level 200).

(** [o.f] where [o] may be [undefined]: reading a property of [undefined]
    throws. *)
Definition deref {A : Type} (o : option A) : outcome A :=
  match o with
  | Some a => Return a
  | None => Throw TypeError
  end.

(** [for (var i = lo; i < lo + n; i++) body] on a threaded state. *)
Fixpoint for_loop {St : Type} (n lo : nat) (body : nat -> St -> outcome St) (s : St)
  : outcome St :=
  match n with
  | O => Return s
  | S n' => let* s' := body lo s in for_loop n' (S lo) body s'
  end.

Fixpoint mapM {A B : Type} (f : A -> outcome B) (l : list A) : outcome (list B) :=
  match l with
  | [] => Return []
  | x :: l' => let* y := f x in let* ys := mapM f l' in Return (y :: ys)
  end.

(** ** The support vector machine ([svmjs]) *)

Module svmjs.

Import JS.

Abbreviation vec := (list num).
Abbreviation matrix := (list (list num)).
Definition kernel_fn : Type := vec -> vec -> num.

(** [a === b] on values that are strings or [undefined]. *)
Definition option_eqb {A : Type} (eqb : A -> A -> bool) (x y : option A) : bool :=
  match x, y with
  | Some a, Some a' => eqb a a'
  | None, None => true
  | _, _ => false
  end.

(** An array index computed as a number: a negative one reads [undefined]. *)
Definition get {A : Type} (l : list A) (j : Z) : option A :=
  if (j <? 0)%Z then None else l !! Z.to_nat j.

(** [options.kernel]: a name, or a function of the caller. *)
Inductive kernel_option : Type :=
| KernelName (name : string)
| KernelFunction (k : kernel_fn).

(** The [options] argument of [train]; [None] is an absent property. *)
Record Options : Type := mkOptions {
  opt_C : option num;
  opt_tol : option num;
  opt_alphatol : option num;
  opt_maxiter : option num;
  opt_numpasses : option num;
  opt_kernel : option kernel_option;
  opt_rbfsigma : option num;
  opt_memoize : bool
}.

Definition no_options : Options :=
  mkOptions None None None None None None None false.

(** The object [this]; a property that was never assigned is [None]
    ([usew_] is only ever tested for truth). *)
Record SVM : Type := mkSVM {
  data : option matrix;
  labels : option vec;
  kernelType : option string;
  rbfSigma : option num;
  kernel : option kernel_fn;
  N : option nat;
  D : option nat;
  alpha : option vec;
  b : option num;
  usew_ : bool;
  kernelResults : option matrix;
  w : option vec
}.

(** [new SVM()]. *)
Definition new_SVM : SVM :=
  mkSVM None None None None None None None None None false None None.

Definition set_alpha (this : SVM) (a : vec) : SVM :=
  mkSVM (data this) (labels this) (kernelType this) (rbfSigma this)
        (kernel this) (N this) (D this) (Some a) (b this) (usew_ this)
        (kernelResults this) (w this).

Definition set_b (this : SVM) (x : num) : SVM :=
  mkSVM (data this) (labels this) (kernelType this) (rbfSigma this)
        (kernel this) (N this) (D this) (alpha this) (Some x) (usew_ this)
        (kernelResults this) (w this).

(** The object that [toJSON] returns and [fromJSON] reads. *)
Record JSON : Type := mkJSON {
  json_N : option nat;
  json_D : option nat;
  json_b : option num;
  json_kernelType : option string;
  json_w : option vec;
  json_rbfSigma : option num;
  json_data : option matrix;
  json_labels : option vec;
  json_alpha : option vec
}.

(** The object [{}]. *)
Definition empty_JSON : JSON :=
  mkJSON None None None None None None None None None.

Definition linearKernel (v1 v2 : vec) : num :=
  fold_left
    (fun s q => add s (mul (ToNumber (v1 !! q)) (ToNumber (v2 !! q))))
    (seq 0 (length v1)) (Fin 0).


Definition randi (a b0 : Z) (r : draw) : Z :=
  Qfloor (draw_value r * inject_Z (b0 - a) + inject_Z a).

Definition zeros (n : nat) : vec := replicate n (Fin 0).

Definition tenth_of_milli : num := Fin (1 # 10000).

Section Builtins.

(** [Math.exp], and the successive results of [Math.random()]. *)
Variable Math_exp : num -> num.
Variable Math_random : nat -> draw.

Definition makeRbfKernel (sigma : option num) : kernel_fn :=
  fun v1 v2 =>
    let s :=
      fold_left
        (fun s q =>
           let d := sub (ToNumber (v1 !! q)) (ToNumber (v2 !! q)) in
           add s (mul d d))
        (seq 0 (length v1)) (Fin 0) in
    Math_exp (div (neg s)
                  (mul (mul (Fin 2) (ToNumber sigma)) (ToNumber sigma))).

Definition marginOne (this : SVM) (inst : vec) : outcome (option num) :=
  let f := b this in
  if usew_ this then
    for_loop (default 0%nat (D this)) 0
      (fun j f =>
         let* w_ := deref (w this) in
         Return (Some (add (ToNumber f)
                           (mul (ToNumber (inst !! j)) (ToNumber (w_ !! j))))))
      f
  else
    for_loop (default 0%nat (N this)) 0
      (fun i f =>
         let* alpha_ := deref (alpha this) in
         let* labels_ := deref (labels this) in
         let* kernel_ := deref (kernel this) in
         let* data_ := deref (data this) in
         let* row := deref (data_ !! i) in
         Return (Some (add (ToNumber f)
                           (mul (mul (ToNumber (alpha_ !! i))
                                     (ToNumber (labels_ !! i)))
                                (kernel_ inst row)))))
      f.

Definition predictOne (this : SVM) (inst : vec) : outcome num :=
  let* m := marginOne this inst in
  Return (if gt (ToNumber m) (Fin 0) then Fin 1 else Fin (-1)).

Definition margins (this : SVM) (data_ : matrix) : outcome (list (option num)) :=
  mapM (marginOne this) data_.

Definition predict (this : SVM) (data_ : matrix) : outcome vec :=
  let* margs := margins this data_ in
  Return (map (fun m => if gt (ToNumber m) (Fin 0) then Fin 1 else Fin (-1)) margs).

Definition kernelResult (this : SVM) (i j : nat) : outcome num :=
  match kernelResults this with
  | Some kr =>
      let* row := deref (kr !! i) in
      Return (ToNumber (row !! j))
  | None =>
      let* kernel_ := deref (kernel this) in
      let* data_ := deref (data this) in
      let* xi := deref (data_ !! i) in
      let* xj := deref (data_ !! j) in
      Return (kernel_ xi xj)
  end.

(** [getWeights()]: the weights summed from the stored samples, with the
    bias.  [new Array(this.D)] has one hole for each feature; when [this.D]
    is [undefined] it is the array [[undefined]]. *)
Definition getWeights (this : SVM) : outcome (list (option num) * option num) :=
  let* w_ :=
    match D this with
    | None => Return [None]
    | Some d =>
        for_loop d 0
          (fun j (w_ : list (option num)) =>
             let* s :=
               for_loop (default 0%nat (N this)) 0
                 (fun i s =>
                    let* alpha_ := deref (alpha this) in
                    let* labels_ := deref (labels this) in
                    let* data_ := deref (data this) in
                    let* row := deref (data_ !! i) in
                    Return (add s (mul (mul (ToNumber (alpha_ !! i))
                                            (ToNumber (labels_ !! i)))
                                       (ToNumber (row !! j)))))
                 (Fin 0) in
             Return (<[j := Some s]> w_))
          (replicate d None)
    end in
  Return (w_, b this).

(** *** Training *)

(** The settings that [train] reads from [options]. *)
Record settings : Type := mkSettings {
  C : num;
  tol : num;
  alphatol : num;
  maxiter : num;
  numpasses : num
}.

Definition read_settings (options : Options) : settings :=
  mkSettings (or_default (opt_C options) (Fin 1))
             (or_default (opt_tol options) tenth_of_milli)
             (or_default (opt_alphatol options) (Fin (1 # 10000000)))
             (or_default (opt_maxiter options) (Fin 10000))
             (or_default (opt_numpasses options) (Fin 10)).

(** [while (j === i) j = randi(0, this.N);] from the value [j]; [rc] counts
    the calls of [Math.random()] so far. *)
Fixpoint pick_j (fuel : nat) (n i : nat) (j : Z) (rc : nat) : outcome (Z * nat) :=
  if (j =? Z.of_nat i)%Z then
    match fuel with
    | O => OutOfFuel
    | S fuel' =>
        pick_j fuel' n i (randi 0 (Z.of_nat n) (Math_random rc)) (S rc)
    end
  else Return (j, rc).

(** The state of one pass: the object, [alphaChanged], the draws made. *)
Definition pass_state : Type := (SVM * nat * nat)%type.

(** The body of [for (var i = 0; i < N; i++)]. *)
Definition smo_step (p : settings) (fuel : nat) (data_ : matrix) (labels_ : vec)
    (i : nat) (st : pass_state) : outcome pass_state :=
  let '(this, alphaChanged, rc) := st in
  let* xi := deref (data_ !! i) in
  let* mi := marginOne this xi in
  let li := ToNumber (labels_ !! i) in
  let Ei := sub (ToNumber mi) li in
  let* alpha_ := deref (alpha this) in
  if (lt (mul li Ei) (neg (tol p)) && lt (ToNumber (alpha_ !! i)) (C p))
     || (gt (mul li Ei) (tol p) && gt (ToNumber (alpha_ !! i)) (Fin 0))
  then
    let* '(j, rc) := pick_j fuel (default 0%nat (N this)) i (Z.of_nat i) rc in
    let* xj := deref (get data_ j) in
    let* mj := marginOne this xj in
    let lj := ToNumber (get labels_ j) in
    let Ej := sub (ToNumber mj) lj in
    let ai := ToNumber (alpha_ !! i) in
    let aj := ToNumber (get alpha_ j) in
    let '(L, H) :=
      if strict_eq_val (labels_ !! i) (get labels_ j)
      then (Math_max (Fin 0) (sub (add ai aj) (C p)),
            Math_min (C p) (add ai aj))
      else (Math_max (Fin 0) (sub aj ai),
            Math_min (C p) (sub (add (C p) aj) ai)) in
    if lt (Math_abs (sub L H)) tenth_of_milli then Return (this, alphaChanged, rc)
    else
      let* kij := kernelResult this i (Z.to_nat j) in
      let* kii := kernelResult this i i in
      let* kjj := kernelResult this (Z.to_nat j) (Z.to_nat j) in
      let eta := sub (sub (mul (Fin 2) kij) kii) kjj in
      if ge eta (Fin 0) then Return (this, alphaChanged, rc)
      else
        let newaj := sub aj (div (mul lj (sub Ei Ej)) eta) in
        let newaj := if gt newaj H then H else newaj in
        let newaj := if lt newaj L then L else newaj in
        if lt (Math_abs (sub aj newaj)) tenth_of_milli
        then Return (this, alphaChanged, rc)
        else
          let alpha_ := <[Z.to_nat j := newaj]> alpha_ in
          let newai := add ai (mul (mul li lj) (sub aj newaj)) in
          let alpha_ := <[i := newai]> alpha_ in
          let b_ := ToNumber (b this) in
          let b1 := sub (sub (sub b_ Ei) (mul (mul li (sub newai ai)) kii))
                        (mul (mul lj (sub newaj aj)) kij) in
          let b2 := sub (sub (sub b_ Ej) (mul (mul li (sub newai ai)) kij))
                        (mul (mul lj (sub newaj aj)) kjj) in
          let b_ := mul (Fin (1 # 2)) (add b1 b2) in
          let b_ := if gt newai (Fin 0) && lt newai (C p) then b1 else b_ in
          let b_ := if gt newaj (Fin 0) && lt newaj (C p) then b2 else b_ in
          Return (set_b (set_alpha this alpha_) b_, S alphaChanged, rc)
  else Return (this, alphaChanged, rc).

(** [while (passes < numpasses && iter < maxiter)]; returns the object, the
    draws made and [iter]. *)
Fixpoint smo_loop (p : settings) (fuel : nat) (data_ : matrix) (labels_ : vec)
    (this : SVM) (rc iter passes : nat) : outcome (SVM * nat * nat) :=
  if lt (of_nat passes) (numpasses p) && lt (of_nat iter) (maxiter p) then
    match fuel with
    | O => OutOfFuel
    | S fuel' =>
        let* '(this, alphaChanged, rc) :=
          for_loop (length data_) 0 (smo_step p fuel' data_ labels_)
                   (this, 0%nat, rc) in
        smo_loop p fuel' data_ labels_ this rc (S iter)
                 (if (alphaChanged =? 0)%nat then S passes else 0%nat)
    end
  else Return (this, rc, iter).

(** The kernel chosen by [options], with [this.kernelType] and
    [this.rbfSigma]. *)
Definition choose_kernel (this : SVM) (options : Options)
  : kernel_fn * string * option num :=
  let linear := (linearKernel, "linear"%string, rbfSigma this) in
  match opt_kernel options with
  | None => linear
  | Some (KernelName name) =>
      let chosen := if String.eqb name "linear" then linear else linear in
      if String.eqb name "rbf" then
        let rbfSigma_ := or_default (opt_rbfsigma options) (Fin (1 # 2)) in
        (makeRbfKernel (Some rbfSigma_), "rbf"%string, Some rbfSigma_)
      else chosen
  | Some (KernelFunction k) => (k, "custom"%string, rbfSigma this)
  end.

(** [this.w] of a linear machine: [w[j]] sums [alpha[i] * labels[i] *
    data[i][j]] over the [n] rows. *)
Definition weights (alpha_ : vec) (labels_ : vec) (data_ : matrix) (n d : nat) : vec :=
  map (fun j =>
         fold_left
           (fun s i =>
              add s (mul (mul (ToNumber (alpha_ !! i)) (ToNumber (labels_ !! i)))
                         (ToNumber (default [] (data_ !! i) !! j))))
           (seq 0 n) (Fin 0))
      (seq 0 d).

Record trainstats : Type := mkTrainstats { iters : nat }.

(** The initializations of [train], up to the SMO loop; [d] is
    [data[0].length]. *)
Definition initialize (this : SVM) (data_ : matrix) (labels_ : vec)
    (options : Options) (d : nat) : SVM :=
  let '(kernel_, kernelType_, rbfSigma_) := choose_kernel this options in
  let n := length data_ in
  let cache :=
    if opt_memoize options
    then Some (map (fun xi => map (fun xj => kernel_ xi xj) data_) data_)
    else kernelResults this in
  mkSVM (Some data_) (Some labels_) (Some kernelType_) rbfSigma_
        (Some kernel_) (Some n) (Some d) (Some (zeros n)) (Some (Fin 0))
        false cache (w this).

(** The end of [train], after the SMO loop: a linear machine stores its
    weights, any other keeps its support vectors only. *)
Definition finish (p : settings) (this : SVM) (data_ : matrix) (labels_ : vec)
  : SVM :=
  let n := default 0%nat (N this) in
  let d := default 0%nat (D this) in
  let alpha_ := default [] (alpha this) in
  if option_eqb String.eqb (kernelType this) (Some "linear"%string) then
    mkSVM (data this) (labels this) (kernelType this) (rbfSigma this)
          (kernel this) (N this) (D this) (alpha this) (b this)
          (if (0 <? d)%nat then true else usew_ this)
          (kernelResults this)
          (Some (weights alpha_ labels_ data_ n d))
  else
    let kept :=
      List.filter (fun i => gt (ToNumber (alpha_ !! i)) (alphatol p)) (seq 0 n) in
    let newdata := omap (fun i => default [] (data this) !! i) kept in
    mkSVM (Some newdata)
          (Some (map (fun i => ToNumber (default [] (labels this) !! i)) kept))
          (kernelType this) (rbfSigma this) (kernel this)
          (Some (length newdata)) (D this)
          (Some (map (fun i => ToNumber (alpha_ !! i)) kept))
          (b this) (usew_ this) (kernelResults this) (w this).

Definition train (fuel : nat) (this : SVM) (data_ : matrix) (labels_ : vec)
    (options : Options) : outcome (trainstats * SVM) :=
  let p := read_settings options in
  let* row0 := deref (data_ !! 0%nat) in
  let this := initialize this data_ labels_ options (length row0) in
  let* '(this, _, iter) := smo_loop p fuel data_ labels_ this 0 0 0 in
  Return (mkTrainstats iter, finish p this data_ labels_).

(** *** Serialization *)

(** A result together with the lines written by [console.log]. *)
Definition logged (A : Type) : Type := (list string * A)%type.

Definition toJSON (this : SVM) : logged (outcome JSON) :=
  if option_eqb String.eqb (kernelType this) (Some "custom"%string) then
    (["Can't save this SVM because it's using custom, unsupported kernel..."%string],
     Return empty_JSON)
  else
    let is_linear := option_eqb String.eqb (kernelType this) (Some "linear"%string) in
    let is_rbf := option_eqb String.eqb (kernelType this) (Some "rbf"%string) in
    ([],
     Return
       (mkJSON (N this) (D this) (b this) (kernelType this)
               (if is_linear then w this else None)
               (if is_rbf then rbfSigma this else None)
               (if is_rbf then data this else None)
               (if is_rbf then labels this else None)
               (if is_rbf then alpha this else None))).

Definition fromJSON (this : SVM) (json : JSON) : logged SVM :=
  if option_eqb String.eqb (json_kernelType json) (Some "linear"%string) then
    ([],
     mkSVM (data this) (labels this) (json_kernelType json) (rbfSigma this)
           (Some linearKernel) (json_N json) (json_D json) (alpha this)
           (json_b json) true (kernelResults this) (json_w json))
  else if option_eqb String.eqb (json_kernelType json) (Some "rbf"%string) then
    ([],
     mkSVM (json_data json) (json_labels json) (json_kernelType json)
           (json_rbfSigma json) (Some (makeRbfKernel (json_rbfSigma json)))
           (json_N json) (json_D json) (json_alpha json) (json_b json)
           (usew_ this) (kernelResults this) (w this))
  else
    ([("ERROR! unrecognized kernel type."
         ++ default "undefined" (json_kernelType json))%string],
     mkSVM (data this) (labels this) (json_kernelType json) (rbfSigma this)
           (kernel this) (json_N json) (json_D json) (alpha this)
           (json_b json) (usew_ this) (kernelResults this) (w this)).

End Builtins.

End svmjs.

(** ** Strings *)

Local Open Scope string_scope.

Definition is_upper (c : ascii) : bool :=
  let n := nat_of_ascii c in (65 <=? n)%nat && (n <=? 90)%nat.

Definition is_lower (c : ascii) : bool :=
  let n := nat_of_ascii c in (97 <=? n)%nat && (n <=? 122)%nat.

Definition is_digit (c : ascii) : bool :=
  let n := nat_of_ascii c in (48 <=? n)%nat && (n <=? 57)%nat.

(** The class [\w]. *)
Definition is_word_char (c : ascii) : bool :=
  is_upper c || is_lower c || is_digit c || Ascii.eqb c "_".

Definition lower_char (c : ascii) : ascii :=
  if is_upper c then ascii_of_nat (nat_of_ascii c + 32) else c.

(** [s.toLowerCase()], on the ASCII letters. *)
Fixpoint toLowerCase (s : string) : string :=
  match s with
  | EmptyString => EmptyString
  | String c s' => String (lower_char c) (toLowerCase s')
  end.

(** [s.includes(sub)]. *)
Fixpoint includes (s sub : string) : bool :=
  if String.prefix sub s then true
  else match s with
       | EmptyString => false
       | String _ s' => includes s' sub
       end.

(** The longest prefix of [s] made of [\w] characters. *)
Fixpoint word_prefix (s : string) : string :=
  match s with
  | EmptyString => EmptyString
  | String c s' => if is_word_char c then String c (word_prefix s') else EmptyString
  end.

(** [s.match(/^\w+/)]: the match, or [null]. *)
Definition match_leading_word (s : string) : option string :=
  match word_prefix s with
  | EmptyString => None
  | wd => Some wd
  end.

(** The matches of [/(?<=\.)\w+/g] in [s]: after every dot that a [\w]
    character follows, the longest run of [\w] characters. *)
Fixpoint words_after_dots (s : string) : list string :=
  match s with
  | EmptyString => []
  | String c s' =>
      if Ascii.eqb c "."
      then match word_prefix s' with
           | EmptyString => words_after_dots s'
           | wd => wd :: words_after_dots s'
           end
      else words_after_dots s'
  end.

(** [s.match(/(?<=\.)\w+/g)]: the array of the matches, or [null] when there
    is none. *)
Definition match_words_after_dots (s : string) : option (list string) :=
  match words_after_dots s with
  | [] => None
  | ws => Some ws
  end.

(** [s.match(/[a-z][A-Z]/g) != null]. *)
Fixpoint has_lower_upper (s : string) : bool :=
  match s with
  | String c1 (String c2 _ as s') =>
      (is_lower c1 && is_upper c2) || has_lower_upper s'
  | _ => false
  end.

(** [s.match(/[a-z]\.[A-Z]/g) != null]. *)
Fixpoint has_lower_dot_upper (s : string) : bool :=
  match s with
  | String c1 (String c2 (String c3 _) as s') =>
      (is_lower c1 && Ascii.eqb c2 "." && is_upper c3) || has_lower_dot_upper s'
  | _ => false
  end.

(** A line feed or a carriage return. *)
Definition is_line_break (c : ascii) : bool :=
  Ascii.eqb c "010" || Ascii.eqb c "013".

(** [s.split(/\n|\r/g)]: the pieces of [s] between its line breaks. *)
Fixpoint split_lines (s : string) : list string :=
  match s with
  | EmptyString => [EmptyString]
  | String c s' =>
      if is_line_break c then EmptyString :: split_lines s'
      else match split_lines s' with
           | [] => [String c EmptyString]
           | piece :: pieces => String c piece :: pieces
           end
  end.

(** [s] without its first [n] characters. *)
Fixpoint drop_chars (n : nat) (s : string) : string :=
  match n, s with
  | O, _ => s
  | S _, EmptyString => EmptyString
  | S n', String _ s' => drop_chars n' s'
  end.

(** [s.replace(pattern, replacement)] for a [pattern] that is a string: the
    first occurrence of [pattern] is replaced. *)
Fixpoint replace (s pattern replacement : string) : string :=
  if String.prefix pattern s
  then replacement ++ drop_chars (String.length pattern) s
  else match s with
       | EmptyString => EmptyString
       | String c s' => String c (replace s' pattern replacement)
       end.

(** [createWordDict]: the new value of [dictionary_words]. *)
Definition createWordDict (text : string) : list string := split_lines text.

(** ** The name-server lookup ([DNS]) *)

Module DNS.

(** The body of a response once parsed: an array of records, or another
    object (which has no [length]). *)
Inductive answer : Type :=
| Records (items : list string)
| OtherObject.

(** The request after [xhr.send()] has returned. *)
Record XMLHttpRequest : Type := mkXHR {
  readyState : nat;
  status : nat;
  response : answer
}.

Definition DONE : nat := 4.

(** [_callApi]: the handler calls [callback] on the parsed response only when
    the request is done with status 200. *)
Definition _callApi {St : Type} (xhr : XMLHttpRequest)
    (callback : answer -> St -> St) (st : St) : St :=
  if (readyState xhr =? DONE)%nat && (status xhr =? 200)%nat
  then callback (response xhr) st
  else st.

Definition Query {St : Type} (xhr : XMLHttpRequest)
    (callback : answer -> St -> St) (st : St) : St :=
  _callApi xhr callback st.

End DNS.

(** ** Candidates and features *)

Record URLElement : Type := mkURLElement {
  url : string;
  beginning : nat;
  middle : nat;
  end_ : nat;
  repetition : nat;
  preposition : nat;
  ns : nat;
  net : nat;
  co : nat;
  gov : nat;
  it : nat;
  my : nat;
  no : nat;
  so : nat;
  you : nat;
  to : nat;
  zip : nat;
  string_ : nat
}.

Record TextofURL : Type := mkTextofURL {
  text_url : string;
  text : string
}.

(** A match of a regular expression: where it starts, and what its groups
    captured (group 0 is the whole match). *)
Record regexp_match : Type := mkMatch {
  index : nat;
  groups : list (option string)
}.

Section Detection.

(** The dictionaries, loaded before any detection. *)
Variable dictionary_words : list string.
Variable dictionary_tlds : list string.

(** What the program takes from its host: regular expressions built from a
    string at run time ([new RegExp(pattern, flags)], [regex.exec(text)],
    [[...text.matchAll(regex)]]), [isNaN] on a string, and the request that
    [DNS.Query] makes for a domain. *)
Variable regex : Type.
Variable RegExp : string -> string -> outcome regex.
Variable exec : regex -> string -> option regexp_match.
Variable matchAll : regex -> string -> list regexp_match.
Variable isNaN : string -> bool.
Variable send : string -> DNS.XMLHttpRequest.

(** The longest entry of the TLD dictionary (the first, among equals) that
    occurs in [endingOfUrl] and contains [last]. *)
Definition longest_tld (endingOfUrl last : string) : string :=
  fold_left
    (fun tld item =>
       if includes endingOfUrl item
          && (String.length tld <? String.length item)%nat
          && includes item last
       then item else tld)
    dictionary_tlds "".

(** [tldIsWord] after the loop over the word dictionary. *)
Definition tldIsWord (tld : string) : bool :=
  fold_left
    (fun found item => if String.eqb tld (toLowerCase item) then true else found)
    dictionary_words false.

(** The result is the array [[isPossibleTypo, tld, firstword, otherwords]].
    The loop over the word dictionary also fills [firstwordIsWord] and
    [countOtherword], which nothing reads; they are left out. *)
Definition Prefiltering (url0 : string)
  : outcome (bool * string * string * option (list string)) :=
  let url0 := toLowerCase url0 in
  let otherwords := match_words_after_dots url0 in
  let* firstword := deref (match_leading_word url0) in
  let tld := "" in
  if includes url0 "/" || includes url0 "?" || includes url0 "www"
  then Return (false, tld, firstword, otherwords)
  else
    let* words := deref otherwords in
    let* tld :=
      if (1 <? length words)%nat then
        let last := default "" (words !! (length words - 1)%nat) in
        let endingOfUrl :=
          default "" (words !! (length words - 2)%nat) ++ "." ++ last in
        Return (longest_tld endingOfUrl last)
      else deref (words !! 0%nat) in
    if String.eqb tld "com" || String.eqb tld "org" || includes tld "."
    then Return (false, tld, firstword, otherwords)
    else
      if tldIsWord tld
      then Return (true, tld, firstword, otherwords)
      else Return (false, tld, firstword, otherwords).

(** A word that introduces an address. *)
Definition introduces_address (previous_word : string) : bool :=
  String.eqb previous_word "on" || String.eqb previous_word "via"
  || String.eqb previous_word "to" || String.eqb previous_word "at"
  || includes previous_word "website" || includes previous_word ":"
  || includes previous_word "visit".

(** [for (match of matches)]: the first word that introduces an address
    sets the flag to 0 and leaves the loop; any other sets it to 1. *)
Fixpoint preposition_of (matches : list regexp_match) : outcome nat :=
  match matches with
  | [] => Return 1%nat
  | m :: rest =>
      let* previous_word := deref (mjoin (groups m !! 1%nat)) in
      if introduces_address (toLowerCase previous_word)
      then Return 0%nat
      else preposition_of rest
  end.

(** The helper returns [true] on a hyphen in the first word; the [return]
    in the callback of [forEach] leaves the callback only, so the helper
    then ends without a value, which is falsy. *)
Definition containsDash (firstword : string) (otherwords : list string) : bool :=
  if includes firstword "-" then true
  else
    let _ := List.map (fun item => includes item "-") otherwords in
    false.

(** [count]: when the first word has fewer than two characters, the number
    of the other words that have fewer than two. *)
Definition short_words (firstword : string) (otherwords : list string) : nat :=
  if (String.length firstword <? 2)%nat
  then length (List.filter (fun item => (String.length item <? 2)%nat) otherwords)
  else 0%nat.

(** The flag [string]. *)
Definition string_flag (firstword : string) (otherwords : list string)
    (url_i : string) : nat :=
  let count := short_words firstword otherwords in
  let rest := (Z.of_nat (length otherwords) - 1)%Z in
  let firstwordIsWord :=
    existsb (fun item => String.eqb firstword (toLowerCase item)) dictionary_words in
  let countOtherword :=
    fold_left
      (fun n item =>
         fold_left
           (fun n k =>
              if String.eqb (default "" (otherwords !! k)) (toLowerCase item)
              then S n else n)
           (seq 0 (Z.to_nat rest)) n)
      dictionary_words 0%nat in
  let otherwordsAreWords := (Z.of_nat countOtherword =? rest)%Z in
  let firstwordisNumber := negb (isNaN firstword) in
  let otherwordsAreNumbers := forallb (fun item => negb (isNaN item)) otherwords in
  let firstwordCamelCase := has_lower_upper firstword in
  let otherwordsCamelCase := existsb has_lower_upper otherwords in
  let urlDotCapital := has_lower_dot_upper url_i in
  if (Z.of_nat count =? rest)%Z then 1%nat
  else if containsDash firstword otherwords then 0%nat
  else if (negb firstwordIsWord && negb firstwordisNumber)
          || (negb otherwordsAreWords && negb otherwordsAreWords) then 0%nat
  else if firstwordisNumber && (length otherwords =? 1)%nat then 1%nat
  else if firstwordisNumber && otherwordsAreNumbers then 1%nat
  else if firstwordisNumber && otherwordsAreWords && negb otherwordsCamelCase then 1%nat
  else if firstwordIsWord && negb firstwordCamelCase && (length otherwords =? 1)%nat
          && urlDotCapital then 1%nat
  else if otherwordsAreWords && negb otherwordsCamelCase && firstwordisNumber then 1%nat
  else if otherwordsAreWords && negb otherwordsCamelCase && firstwordIsWord
          && negb firstwordCamelCase then 1%nat
  else 0%nat.

(** The result is the array [url_elements_arr] after the call. *)
Definition calculateFeatures (firstword : string) (otherwords : list string)
    (i : nat) (urls : list string) (tld : string)
    (url_elements_arr : list URLElement)
    (textofurl_elements_arr : list TextofURL) : outcome (list URLElement) :=
  let* t := deref (textofurl_elements_arr !! i) in
  let text_ := text t in
  let* s := deref (urls !! i) in
  let url_length := Z.of_nat (String.length s) in
  let* re := RegExp s "" in
  let* found := deref (exec re text_) in
  let startof_url := Z.of_nat (index found) in
  let text_length := Z.of_nat (String.length text_) in
  let '(end_flag, beginning_flag, middle_flag) :=
    if (startof_url =? text_length - url_length)%Z then (1, 0, 0)%nat
    else if (startof_url =? 0)%Z then (0, 1, 0)%nat
    else (0, 0, 1)%nat in
  let* re := RegExp s "g" in
  let matches := matchAll re text_ in
  let repetition_flag := if (1 <? length matches)%nat then 1%nat else 0%nat in
  let* re := RegExp ("([^ " ++ String "013" (String "010" "]+) ") ++ s) "g" in
  let matches := matchAll re text_ in
  let* preposition_flag :=
    if (length matches =? 0)%nat then Return 1%nat else preposition_of matches in
  let flag (name : string) := if String.eqb tld name then 1%nat else 0%nat in
  let string_flag_ := string_flag firstword otherwords s in
  Return
    (DNS.Query (send s)
       (fun data_ arr =>
          let ns_flag :=
            match data_ with
            | DNS.Records items => if (length items =? 0)%nat then 1%nat else 0%nat
            | DNS.OtherObject => 0%nat
            end in
          (arr ++ [mkURLElement s beginning_flag middle_flag end_flag
                     repetition_flag preposition_flag ns_flag
                     (flag "net") (flag "co") (flag "gov") (flag "it")
                     (flag "my") (flag "no") (flag "so") (flag "you")
                     (flag "to") (flag "zip") string_flag_])%list)
       url_elements_arr).

(** The loop of [TweetButtonClicked] over the collected tokens. *)
Definition detection_pass (urls : list string)
    (textofurl_elements_arr : list TextofURL) : outcome (list URLElement) :=
  for_loop (length urls) 0
    (fun i url_elements_arr =>
       let* '(isPossibleTypo, tld, firstword, otherwords) :=
         Prefiltering (default "" (urls !! i)) in
       if isPossibleTypo : bool then
         let* words := deref otherwords in
         calculateFeatures firstword words i urls tld url_elements_arr
                           textofurl_elements_arr
       else Return url_elements_arr)
    [].

(** The vector that [predict] builds from an element. *)
Definition feature_vector (item : URLElement) : svmjs.vec :=
  map JS.of_nat
      [ns item; preposition item; string_ item; repetition item;
       beginning item; end_ item; middle item; net item; co item; gov item;
       it item; my item; no item; so item; you item; to item; zip item].

End Detection.

(** [predictTypos]: the elements that the loaded machine labels 1. *)
Definition predictTypos (Math_exp : JS.num -> JS.num) (json : svmjs.JSON)
    (url_elements_arr : list URLElement) : outcome (list URLElement) :=
  let mysvm := snd (svmjs.fromJSON Math_exp svmjs.new_SVM json) in
  let* predictions := svmjs.predict mysvm (map feature_vector url_elements_arr) in
  Return
    (map snd
       (List.filter (fun '(p, _) => JS.strict_eq p (JS.Fin 1))
                    (combine predictions url_elements_arr))).

(** *** The click on the Tweet button *)

(** A child of a text block of the editor, with the text of its [style]
    attribute; and a text block. *)
Record Child : Type := mkChild {
  cssText : string;
  child_innerText : string
}.

Record TextElement : Type := mkTextElement {
  innerText : string;
  children : list Child
}.

(** The first loops of [TweetButtonClicked]: the arrays [urls] and
    [textofurl_elements_arr] collected from the styled children. *)
Definition collect_urls (textElements : list TextElement)
  : list string * list TextofURL :=
  fold_left
    (fun st textElement =>
       fold_left
         (fun '(urls, textofurl_elements_arr) child =>
            if negb (String.eqb (cssText child) "") then
              let u := child_innerText child in
              let u := replace u "https://" "" in
              let u := replace u "http://" "" in
              if negb (existsb (String.eqb u) urls)
              then ((urls ++ [u])%list,
                    (textofurl_elements_arr
                       ++ [mkTextofURL u (innerText textElement)])%list)
              else (urls, textofurl_elements_arr)
            else (urls, textofurl_elements_arr))
         (children textElement) st)
    textElements ([], []).

(** What the user sees in the end: the warning dialog with its text, or the
    tweet posted (the click is dispatched again). *)
Inductive dialog : Type :=
| Warning (innerHTML : string)
| Posted.

(** [alertText]: the addresses of the elements, each followed by a space. *)
Definition alertText (typo_arr : list URLElement) : string :=
  fold_left (fun t item => t ++ url item ++ " ") typo_arr "".

(** The end of [predictTypos]. *)
Definition show_dialog (typo_arr : list URLElement) : dialog :=
  if negb (length typo_arr =? 0)%nat
  then Warning ("WARNING! <br><br> You are about to post following link(s): "
                ++ alertText typo_arr)
  else Posted.

(** [TweetButtonClicked]: nothing is done while [ignore] is set; otherwise the
    tokens are collected, filtered and looked up, and the loaded machine
    decides on the dialog.  [json] is the content of the model file that
    [predict] fetches. *)
Definition TweetButtonClicked (dictionary_words dictionary_tlds : list string)
    (regex : Type) (RegExp : string -> string -> outcome regex)
    (exec : regex -> string -> option regexp_match)
    (matchAll : regex -> string -> list regexp_match)
    (isNaN : string -> bool) (send : string -> DNS.XMLHttpRequest)
    (Math_exp : JS.num -> JS.num) (json : svmjs.JSON)
    (ignore : bool) (textElements : list TextElement) : outcome (option dialog) :=
  if negb ignore then
    let '(urls, textofurl_elements_arr) := collect_urls textElements in
    let* url_elements_arr :=
      detection_pass dictionary_words dictionary_tlds regex RegExp exec matchAll
                     isNaN send urls textofurl_elements_arr in
    let* typo_arr := predictTypos Math_exp json url_elements_arr in
    Return (Some (show_dialog typo_arr))
  else Return None.

(** ** A host to run the model on examples

    The theorems below hold for every host.  To run the model on examples,
    this one interprets the patterns the program builds from tokens made of
    letters, digits, [-], [_] and dots: in a pattern a dot stands for any
    character but a line break, another character for itself, and the prefix
    [([^ \r\n]+) ] for a word and the space after it. *)

Module Host.

Definition line_break (c : ascii) : bool :=
  Ascii.eqb c "010" || Ascii.eqb c "013".

(** The pattern matches a prefix of [s]. *)
Fixpoint matches_here (pattern s : string) : bool :=
  match pattern, s with
  | EmptyString, _ => true
  | String _ _, EmptyString => false
  | String c pattern', String d s' =>
      (if Ascii.eqb c "." then negb (line_break d) else Ascii.eqb c d)
      && matches_here pattern' s'
  end.

(** The longest prefix of [s] without space or line break. *)
Fixpoint word_before_space (s : string) : string :=
  match s with
  | EmptyString => EmptyString
  | String c s' =>
      if Ascii.eqb c " " || line_break c then EmptyString
      else String c (word_before_space s')
  end.

Inductive regex : Type :=
| Plain (pattern : string)
| AfterWord (pattern : string).

Definition word_and_space : string :=
  "([^ " ++ String "013" (String "010" "]+) ").

Definition RegExp (pattern flags : string) : outcome regex :=
  if String.prefix word_and_space pattern
  then Return (AfterWord (substring (String.length word_and_space)
                                    (String.length pattern) pattern))
  else Return (Plain pattern).

(** The match of [re] that starts [s], if there is one: its length and its
    groups. *)
Definition match_at (re : regex) (s : string) : option (nat * list (option string)) :=
  match re with
  | Plain pattern =>
      if matches_here pattern s
      then Some (String.length pattern,
                 [Some (substring 0 (String.length pattern) s)])
      else None
  | AfterWord pattern =>
      let wd := word_before_space s in
      let rest := substring (String.length wd) (String.length s) s in
      match wd, rest with
      | String _ _, String sp rest' =>
          if Ascii.eqb sp " " && matches_here pattern rest'
          then
            let len := (String.length wd + 1 + String.length pattern)%nat in
            Some (len, [Some (substring 0 len s); Some wd])
          else None
      | _, _ => None
      end
  end.

(** The matches of [re] in [s], which starts at [pos]; [skip] characters are
    still part of the previous match. *)
Fixpoint matches_from (re : regex) (s : string) (pos skip : nat) : list regexp_match :=
  match skip with
  | S skip' =>
      match s with
      | EmptyString => []
      | String _ s' => matches_from re s' (S pos) skip'
      end
  | O =>
      match match_at re s with
      | Some (len, gs) =>
          mkMatch pos gs ::
          match s with
          | EmptyString => []
          | String _ s' => matches_from re s' (S pos) (len - 1)
          end
      | None =>
          match s with
          | EmptyString => []
          | String _ s' => matches_from re s' (S pos) 0
          end
      end
  end.

Definition matchAll (re : regex) (s : string) : list regexp_match :=
  matches_from re s 0 0.

Definition exec (re : regex) (s : string) : option regexp_match :=
  head (matchAll re s).

Fixpoint all_chars (p : ascii -> bool) (s : string) : bool :=
  match s with
  | EmptyString => true
  | String c s' => p c && all_chars p s'
  end.

Definition is_hex (c : ascii) : bool :=
  is_digit c
  || (let n := nat_of_ascii c in
      ((65 <=? n) && (n <=? 70) || (97 <=? n) && (n <=? 102))%nat).

Definition nonempty (s : string) : bool := negb (String.eqb s "").

(** Digits, then possibly [e] or [E] and digits. *)
Fixpoint decimal (s : string) (seen : bool) : bool :=
  match s with
  | EmptyString => seen
  | String c s' =>
      if is_digit c then decimal s' true
      else seen && (Ascii.eqb c "e" || Ascii.eqb c "E")
           && nonempty s' && all_chars is_digit s'
  end.

(** [isNaN] on a string of letters, digits and underscores: the numeric
    strings are the empty one, [Infinity], the decimal ones and the
    hexadecimal, octal and binary ones. *)
Definition isNaN (s : string) : bool :=
  negb
    (match s with
     | EmptyString => true
     | String "0" (String r digits) =>
         if Ascii.eqb r "x" || Ascii.eqb r "X"
         then nonempty digits && all_chars is_hex digits
         else if Ascii.eqb r "o" || Ascii.eqb r "O"
         then nonempty digits
              && all_chars (fun c => is_digit c && negb (Ascii.eqb c "8")
                                     && negb (Ascii.eqb c "9")) digits
         else if Ascii.eqb r "b" || Ascii.eqb r "B"
         then nonempty digits
              && all_chars (fun c => Ascii.eqb c "0" || Ascii.eqb c "1") digits
         else decimal s false
     | _ => String.eqb s "Infinity" || decimal s false
     end).

(** A request that is done, with the given status and records. *)
Definition answered (status : nat) (records : list string) : DNS.XMLHttpRequest :=
  DNS.mkXHR DNS.DONE status (DNS.Records records).

(** A rational stand-in for [Math.exp]: [(2 + x) / (2 - x)] on the finite
    numbers. *)
Definition Math_exp (x : JS.num) : JS.num :=
  match x with
  | JS.NaN => JS.NaN
  | JS.PInf => JS.PInf
  | JS.NInf => JS.Fin 0
  | JS.Fin q => JS.div (JS.Fin (2 + q)) (JS.Fin (2 - q))
  end.

(** Draws of [Math.random()]: 0, 1/2, 0, 1/2, ... *)
Definition Math_random (k : nat) : JS.draw :=
  if Nat.even k then JS.Draw 0 0 else JS.Draw 1 0.

End Host.

(** ** Notions used in the statements *)

Import JS svmjs.

(** [bias + weight . x], summed in the order of the indices. *)
Definition linear_margin (bias : num) (weight x : vec) : num :=
  fold_left (fun f j => add f (mul (ToNumber (x !! j)) (ToNumber (weight !! j))))
            (seq 0 (length weight)) bias.

(** The number is neither NaN nor infinite. *)
Definition finite (a : num) : Prop := exists q, a = Fin q.



(** The call returns a value. *)
Definition returns {A : Type} (r : outcome A) : Prop := exists a, r = Return a.

(** Exactly one of the three position flags is 1, the others are 0. *)
Definition one_position (e : URLElement) : Prop :=
  (beginning e = 1 /\ middle e = 0 /\ end_ e = 0)%nat
  \/ (beginning e = 0 /\ middle e = 1 /\ end_ e = 0)%nat
  \/ (beginning e = 0 /\ middle e = 0 /\ end_ e = 1)%nat.

Definition tld_flags (e : URLElement) : list nat :=
  [net e; co e; gov e; it e; my e; no e; so e; you e; to e; zip e].

(** Every TLD flag is 0 or 1, and at most one of them is 1. *)
Definition at_most_one_tld (e : URLElement) : Prop :=
  Forall (fun f => f = 0 \/ f = 1)%nat (tld_flags e)
  /\ (list_sum (tld_flags e) <= 1)%nat.

(** Two training points on a line, with their labels. *)
Definition two_points : matrix := [[Fin 1]; [Fin (-1)]].
Definition two_labels : vec := [Fin 1; Fin (-1)].




(** A vector of 17 entries, each 0 or 1. *)
Definition binary_vector (v : vec) : Prop :=
  length v = 17%nat /\ Forall (fun a => a = Fin 0 \/ a = Fin 1) v.

(** The request is done, with status 200. *)
Definition lookup_succeeded (xhr : DNS.XMLHttpRequest) : Prop :=
  DNS.readyState xhr = DNS.DONE /\ DNS.status xhr = 200%nat.

(** The text of a child as [TweetButtonClicked] keeps it. *)
Definition strip_scheme (u : string) : string :=
  replace (replace u "https://" "") "http://" "".

(** [Prefiltering] reports the token as a candidate. *)
Definition accepted (dictionary_words dictionary_tlds : list string) (u : string)
  : Prop :=
  exists tld firstword otherwords,
    Prefiltering dictionary_words dictionary_tlds u
    = Return (true, tld, firstword, otherwords).

(** The text holds neither line feed nor carriage return. *)
Definition no_line_break (s : string) : Prop :=
  Forall (fun c => is_line_break c = false) (list_ascii_of_string s).

(** A child with a [style] attribute that is not empty. *)
Definition styled (child : Child) : Prop := cssText child <> "".

(** [u] is the text, without its scheme, of a styled child of a block whose
    text is [text_]. *)
Definition token_of (textElements : list TextElement) (u text_ : string) : Prop :=
  exists textElement child,
    textElement ∈ textElements /\ child ∈ children textElement /\ styled child /\
    u = strip_scheme (child_innerText child) /\ text_ = innerText textElement.

(** ** Loops and lists *)

Lemma for_loop_inv {St : Type} (P : St -> Prop) (body : nat -> St -> outcome St)
    (n lo : nat) (s s' : St) :
  (forall i x y, (lo <= i < lo + n)%nat -> P x -> body i x = Return y -> P y) ->
  P s -> for_loop n lo body s = Return s' -> P s'.
Proof.
  revert lo s. induction n as [|n IH]; intros lo s Hbody Hs H; simpl in H.
  - congruence.
  - destruct (body lo s) as [y| |] eqn:E; simpl in H; try discriminate.
    apply (IH (S lo) y); [| |exact H].
    + intros i x z Hi. apply Hbody. lia.
    + apply (Hbody lo s y); [lia | exact Hs | exact E].
Qed.

Lemma for_loop_pure {St : Type} (g : nat -> St -> St) (n lo : nat) (s : St) :
  for_loop n lo (fun i x => Return (g i x)) s
  = Return (fold_left (fun x i => g i x) (seq lo n) s).
Proof.
  revert lo s. induction n as [|n IH]; intros lo s; simpl; [reflexivity|].
  apply IH.
Qed.

Lemma for_loop_total {St : Type} (P : St -> Prop) (body : nat -> St -> outcome St)
    (n lo : nat) (s : St) :
  (forall i x, (lo <= i < lo + n)%nat -> P x -> exists y, body i x = Return y /\ P y) ->
  P s -> exists s', for_loop n lo body s = Return s' /\ P s'.
Proof.
  revert lo s. induction n as [|n IH]; intros lo s Hbody Hs; simpl.
  - eauto.
  - destruct (Hbody lo s ltac:(lia) Hs) as (y & -> & Hy). simpl.
    apply IH; [| exact Hy]. intros i x Hi. apply Hbody. lia.
Qed.

Lemma for_loop_no_throw {St : Type} (P : St -> Prop) (body : nat -> St -> outcome St)
    (n lo : nat) (s : St) (e : error) :
  (forall i x, (lo <= i < lo + n)%nat -> P x ->
               body i x <> Throw e /\ forall y, body i x = Return y -> P y) ->
  P s -> for_loop n lo body s <> Throw e.
Proof.
  revert lo s. induction n as [|n IH]; intros lo s Hbody Hs; simpl; [discriminate|].
  destruct (Hbody lo s ltac:(lia) Hs) as [Hno Hnext].
  destruct (body lo s) as [y| |]; cbn [bind]; [| congruence | discriminate].
  apply IH; [| apply Hnext; reflexivity].
  intros i x Hi. apply Hbody. lia.
Qed.

Lemma lookup_map {A B : Type} (f : A -> B) (l : list A) (i : nat) :
  map f l !! i = option_map f (l !! i).
Proof.
  revert i. induction l as [|x l IH]; intros [|i]; simpl; auto.
Qed.


Lemma fold_left_Some (g : nat -> num) (l : list nat) (v : num) :
  fold_left (fun (f : option num) j => Some (add (ToNumber f) (g j))) l (Some v)
  = Some (fold_left (fun f j => add f (g j)) l v).
Proof.
  revert v. induction l as [|j l IH]; intros v; simpl; [reflexivity | apply IH].
Qed.

Lemma option_eqb_string (x : option string) (s : string) :
  option_eqb String.eqb x (Some s) = true <-> x = Some s.
Proof.
  destruct x as [t|]; cbn; [| split; discriminate].
  rewrite String.eqb_eq. split; congruence.
Qed.

(** ** The machine *)

Local Open Scope Q_scope.

Lemma draw_value_range (d : draw) : 0 <= draw_value d /\ draw_value d < 1.
Proof.
  destruct d as [a g]. unfold draw_value, Qle, Qlt. simpl.
  rewrite Zpos_P_of_succ_nat. split; lia.
Qed.

Lemma randi_range (n : nat) (d : draw) :
  (0 < n)%nat -> (0 <= randi 0 (Z.of_nat n) d < Z.of_nat n)%Z.
Proof.
  intros Hn. unfold randi.
  destruct (draw_value_range d) as [H0 H1].
  assert (Hn' : 0 < inject_Z (Z.of_nat n)).
  { change 0 with (inject_Z 0). rewrite <- Zlt_Qlt. lia. }
  assert (Hx : draw_value d * inject_Z (Z.of_nat n - 0) + inject_Z 0
               == draw_value d * inject_Z (Z.of_nat n)).
  { rewrite Z.sub_0_r. change (inject_Z 0) with 0. ring. }
  rewrite (Qfloor_comp _ _ Hx).
  split.
  - rewrite <- (Qfloor_Z 0) at 1. apply Qfloor_resp_le.
    change (inject_Z 0) with 0.
    apply Qmult_le_0_compat; [exact H0 | apply Qlt_le_weak, Hn'].
  - rewrite Zlt_Qlt. eapply Qle_lt_trans; [apply Qfloor_le |].
    rewrite <- (Qmult_1_l (inject_Z (Z.of_nat n))) at 2.
    apply Qmult_lt_compat_r; assumption.
Qed.

Section Machine.
Variable Math_exp : num -> num.
Variable Math_random : nat -> draw.

Lemma pick_j_single (fuel rc : nat) :
  pick_j Math_random fuel 1 0 0 rc = OutOfFuel.
Proof.
  revert rc. induction fuel as [|fuel IH]; intros rc; [reflexivity|].
  simpl. 
  assert (H : randi 0 1 (Math_random rc) = 0%Z).
  { pose proof (randi_range 1 (Math_random rc) ltac:(lia)) as H.
    change (Z.of_nat 1) with 1%Z in H. lia. }
  change (Z.of_nat 1) with 1%Z. rewrite H. apply IH.
Qed.

Lemma linearKernel_finite (v1 v2 : vec) :
  Forall finite v1 -> Forall finite v2 -> length v1 = length v2 ->
  finite (linearKernel v1 v2).
Proof.
  intros H1 H2 Hlen. unfold linearKernel.
  assert (H : forall (l : list nat) s,
             Forall (fun q => (q < length v1)%nat) l -> finite s ->
             finite (fold_left
                       (fun s q => add s (mul (ToNumber (v1 !! q)) (ToNumber (v2 !! q))))
                       l s)).
  { induction l as [|q l IH]; intros s Hl Hs; simpl; [exact Hs|].
    inversion Hl as [|? ? Hq Hl']; subst. apply IH; [exact Hl'|].
    destruct (lookup_lt_is_Some_2 v1 q Hq) as [a Ha].
    destruct (lookup_lt_is_Some_2 v2 q ltac:(lia)) as [c Hc].
    rewrite Ha, Hc. simpl.
    destruct (proj1 (Forall_lookup _ _) H1 _ _ Ha) as [qa ->].
    destruct (proj1 (Forall_lookup _ _) H2 _ _ Hc) as [qc ->].
    destruct Hs as [qs ->]. simpl. eexists. reflexivity. }
  apply H; [| exists 0; reflexivity].
  apply Forall_forall. intros q Hq. apply elem_of_seq in Hq. lia.
Qed.

Lemma lt_Fin (x y : Q) : x < y -> lt (Fin x) (Fin y) = true.
Proof. intros H. simpl. rewrite (proj1 (Qlt_alt x y) H). reflexivity. Qed.

(** C4 fails on the code at every training set of one sample (finite
    features, label 1 or -1, default options): the first error is -1 or 1
    against the label, so the sample asks for an update, and the loop that
    draws the partner [j] of [i] asks for an index other than [i] among
    [N = 1] indices, where [randi(0, 1)] is always 0.  Whatever the fuel and
    whatever [Math.random()] returns, [train] does not return.  So it is on
    the sample [[1]] with label 1. *)
Theorem train_one_sample_never_returns :
  (forall (fuel : nat) (row : vec) (label : num),
      Forall finite row -> label = Fin 1 \/ label = Fin (-1) ->
      train Math_exp Math_random fuel new_SVM [row] [label] no_options = OutOfFuel)
  /\ (forall fuel : nat,
        train Math_exp Math_random fuel new_SVM [[Fin 1]] [Fin 1] no_options
        = OutOfFuel).
Proof.
  assert (Hone : forall (fuel : nat) (row : vec) (label : num),
             Forall finite row -> label = Fin 1 \/ label = Fin (-1) ->
             train Math_exp Math_random fuel new_SVM [row] [label] no_options
             = OutOfFuel).
  { intros fuel row label Hrow Hlabel.
    destruct (linearKernel_finite row row Hrow Hrow eq_refl) as [k Hk].
    destruct fuel as [|fuel]; [reflexivity|].
    unfold train. cbn -[pick_j linearKernel lt gt mul add sub neg].
    rewrite Hk. change (Z.of_nat 0) with 0%Z. rewrite pick_j_single. cbn [bind].
    assert (Hcond :
              lt (mul label
                      (sub (add (Fin 0) (mul (mul (Fin 0) label) (Fin k))) label))
                 (neg tenth_of_milli) = true).
    { destruct Hlabel as [->| ->]; cbn [mul sub add neg tenth_of_milli];
        apply lt_Fin.
      - assert (E : 1 * (0 + 0 * 1 * k + - (1)) == -1) by ring.
        rewrite E. reflexivity.
      - assert (E : -1 * (0 + 0 * -1 * k + - -1) == -1) by ring.
        rewrite E. reflexivity. }
    rewrite Hcond. reflexivity. }
  split; [exact Hone|].
  intros fuel. apply Hone; [| left; reflexivity].
  repeat constructor. exists 1. reflexivity.
Qed.


Definition frame (s t : SVM) : Prop :=
  exists a x,
    t = mkSVM (data s) (labels s) (kernelType s) (rbfSigma s) (kernel s) (N s)
              (D s) (Some a) (Some x) (usew_ s) (kernelResults s) (w s).

Lemma frame_update s t a x : frame s t -> frame s (set_b (set_alpha t a) x).
Proof. intros (a0 & x0 & ->). exists a, x. reflexivity. Qed.

Ltac step_cases H :=
  repeat (cbn [bind] in H;
    match type of H with
    | Return _ = Return _ => fail 1
    | bind ?m _ = _ => let E := fresh "E" in destruct m eqn:E
    | (let '(_, _) := ?x in _) = _ => let E := fresh "E" in destruct x eqn:E
    | (if ?c then _ else _) = _ => let E := fresh "E" in destruct c eqn:E
    | Throw _ = Return _ => discriminate H
    | OutOfFuel = Return _ => discriminate H
    end).



Lemma smo_step_frame s0 p fuel data_ labels_ i this ac rc this' ac' rc' :
  frame s0 this ->
  smo_step Math_random p fuel data_ labels_ i (this, ac, rc) = Return (this', ac', rc') ->
  frame s0 this'.
Proof.
  intros Hf H. unfold smo_step in H.
  step_cases H; inversion H; subst; try assumption; apply frame_update, Hf.
Qed.

Lemma smo_loop_frame s0 p fuel data_ labels_ this rc iter passes this' rc' iter' :
  frame s0 this ->
  smo_loop Math_random p fuel data_ labels_ this rc iter passes = Return (this', rc', iter') ->
  frame s0 this'.
Proof.
  revert this rc iter passes.
  induction fuel as [|fuel IH]; intros this rc iter passes Hf H; simpl in H.
  - destruct (_ && _); [discriminate | congruence].
  - destruct (_ && _); [| congruence].
    destruct (for_loop _ _ _ _) as [[[t ac] rc1]| |] eqn:E; simpl in H; try discriminate.
    apply IH in H; [exact H|].
    apply (for_loop_inv (fun st => frame s0 (fst (fst st)))) in E; [exact E | | exact Hf].
    intros j [[x1 x2] x3] [[y1 y2] y3] _ Hx Hy; simpl in *.
    eapply smo_step_frame; eauto.
Qed.


Lemma pick_j_range fuel n i j rc j' rc' :
  (0 < n)%nat -> (0 <= j < Z.of_nat n)%Z ->
  pick_j Math_random fuel n i j rc = Return (j', rc') ->
  (0 <= j' < Z.of_nat n)%Z.
Proof.
  intros Hn. revert j rc.
  induction fuel as [|fuel IH]; intros j rc Hj H; simpl in H.
  - destruct (j =? Z.of_nat i)%Z; [discriminate | congruence].
  - destruct (j =? Z.of_nat i)%Z; [| congruence].
    apply IH in H; [exact H|]. apply randi_range, Hn.
Qed.









Lemma train_Return fuel this (data_ : matrix) (labels_ : vec) options stats m :
  train Math_exp Math_random fuel this data_ labels_ options = Return (stats, m) ->
  exists row0 this1 rc,
    data_ !! 0%nat = Some row0 /\
    smo_loop Math_random (read_settings options) fuel data_ labels_
             (initialize Math_exp this data_ labels_ options (length row0)) 0 0 0
    = Return (this1, rc, iters stats) /\
    m = finish (read_settings options) this1 data_ labels_.
Proof.
  unfold train. intros H.
  destruct (data_ !! 0%nat) as [row0|]; [| discriminate].
  cbn [deref bind] in H.
  destruct (smo_loop _ _ _ _ _ _ _ _ _) as [[[this1 rc] iter]| |] eqn:E;
    cbn [bind] in H; try discriminate.
  inversion H; subst. exists row0, this1, rc. auto.
Qed.

Lemma choose_kernel_cases this options k kt sg :
  choose_kernel Math_exp this options = (k, kt, sg) ->
  (kt = "linear"%string /\ k = linearKernel /\ sg = rbfSigma this)
  \/ (kt = "rbf"%string /\ opt_kernel options = Some (KernelName "rbf") /\
      sg = Some (or_default (opt_rbfsigma options) (Fin (1 # 2))) /\
      k = makeRbfKernel Math_exp sg)
  \/ (kt = "custom"%string /\ opt_kernel options = Some (KernelFunction k) /\
      sg = rbfSigma this).
Proof.
  unfold choose_kernel. intros H.
  destruct (opt_kernel options) as [[name|f]|].
  - destruct (String.eqb name "rbf") eqn:E.
    + apply String.eqb_eq in E. subst name. inversion H; subst. right; left. auto.
    + destruct (String.eqb name "linear"); inversion H; subst; left; auto.
  - inversion H; subst. right; right. auto.
  - inversion H; subst. left; auto.
Qed.

Lemma initialize_shape this (data_ : matrix) (labels_ : vec) options d :
  exists k kt sg,
    choose_kernel Math_exp this options = (k, kt, sg) /\
    initialize Math_exp this data_ labels_ options d
    = mkSVM (Some data_) (Some labels_) (Some kt) sg (Some k)
            (Some (length data_)) (Some d) (Some (zeros (length data_)))
            (Some (Fin 0)) false
            (if opt_memoize options
             then Some (map (fun xi => map (fun xj => k xi xj) data_) data_)
             else kernelResults this)
            (w this).
Proof.
  unfold initialize.
  destruct (choose_kernel Math_exp this options) as [[k kt] sg].
  exists k, kt, sg. auto.
Qed.

Lemma frame_initialize this (data_ : matrix) (labels_ : vec) options d :
  frame (initialize Math_exp this data_ labels_ options d)
        (initialize Math_exp this data_ labels_ options d).
Proof.
  destruct (initialize_shape this data_ labels_ options d) as (k & kt & sg & _ & ->).
  eexists _, _. reflexivity.
Qed.


Lemma length_weights a l dt n d : length (weights a l dt n d) = d.
Proof. unfold weights. rewrite length_map, length_seq. reflexivity. Qed.

(** The margin of a machine that uses its cached weights. *)
Lemma marginOne_usew this bias weight x :
  usew_ this = true -> b this = Some bias -> w this = Some weight ->
  D this = Some (length weight) ->
  marginOne this x = Return (Some (linear_margin bias weight x)).
Proof.
  intros Hu Hb Hw HD. unfold marginOne.
  rewrite Hu, Hb, Hw, HD. cbn [deref bind default from_option id].
  rewrite (for_loop_pure
             (fun j f => Some (add (ToNumber f)
                                   (mul (ToNumber (x !! j)) (ToNumber (weight !! j)))))).
  rewrite (fold_left_Some (fun j => mul (ToNumber (x !! j)) (ToNumber (weight !! j)))).
  reflexivity.
Qed.





Lemma trained_rbf_shape fuel (data_ : matrix) (labels_ : vec) options stats m :
  train Math_exp Math_random fuel new_SVM data_ labels_ options = Return (stats, m) ->
  kernelType m = Some "rbf"%string ->
  exists sv lb al bias d cache,
    m = mkSVM (Some sv) (Some lb) (Some "rbf"%string)
              (Some (or_default (opt_rbfsigma options) (Fin (1 # 2))))
              (Some (makeRbfKernel Math_exp
                       (Some (or_default (opt_rbfsigma options) (Fin (1 # 2))))))
              (Some (length sv)) (Some d) (Some al) (Some bias) false cache None.
Proof.
  intros Htrain Hkt.
  destruct (train_Return _ _ _ _ _ _ _ Htrain) as (row0 & this1 & rc & Hrow & Hloop & Hm).
  pose proof (smo_loop_frame _ _ _ _ _ _ _ _ _ _ _ _
                (frame_initialize new_SVM data_ labels_ options (length row0)) Hloop)
    as (a & x & Hthis1).
  destruct (initialize_shape new_SVM data_ labels_ options (length row0))
    as (k & kt & sg & Hck & Hinit).
  rewrite Hinit in Hthis1. cbn in Hthis1.
  assert (Hrbf : kt = "rbf"%string).
  { subst m this1. unfold finish in Hkt. cbn in Hkt.
    destruct (String.eqb kt "linear") eqn:E; cbn in Hkt; congruence. }
  subst kt.
  destruct (choose_kernel_cases _ _ _ _ _ Hck)
    as [(? & _)|[(_ & _ & -> & ->)|(? & _)]]; try discriminate.
  subst m this1. unfold finish. cbn.
  eexists _, _, _, _, _, _. reflexivity.
Qed.

Lemma predict_mapM this (xs : matrix) :
  predict this xs = mapM (predictOne this) xs.
Proof.
  unfold predict, margins, predictOne.
  induction xs as [|x xs IH]; cbn [mapM bind map]; [reflexivity|].
  destruct (marginOne this x) as [m| |]; cbn [bind]; try reflexivity.
  rewrite <- IH.
  destruct (mapM (marginOne this) xs); reflexivity.
Qed.




(** *** [train] throws only for want of a first row *)

Lemma pick_j_no_throw fuel n i j rc e :
  pick_j Math_random fuel n i j rc <> Throw e.
Proof.
  revert j rc. induction fuel as [|fuel IH]; intros j rc; simpl;
    destruct (j =? Z.of_nat i)%Z; try discriminate. apply IH.
Qed.

(** The objects of the SMO loop: [initialize] made them, and only [alpha]
    and [b] have changed since. *)
Definition in_training (data_ : matrix) (labels_ : vec) (options : Options)
    (d : nat) (this : SVM) : Prop :=
  frame (initialize Math_exp new_SVM data_ labels_ options d) this.

Lemma in_training_shape (data_ : matrix) (labels_ : vec) options d this :
  in_training data_ labels_ options d this ->
  exists k kt sg a x,
    this = mkSVM (Some data_) (Some labels_) (Some kt) sg (Some k)
                 (Some (length data_)) (Some d) (Some a) (Some x) false
                 (if opt_memoize options
                  then Some (map (fun xi => map (fun xj => k xi xj) data_) data_)
                  else None)
                 None.
Proof.
  intros (a & x & ->).
  destruct (initialize_shape new_SVM data_ labels_ options d)
    as (k & kt & sg & _ & ->).
  exists k, kt, sg, a, x. reflexivity.
Qed.

Lemma marginOne_in_training (data_ : matrix) (labels_ : vec) options d this inst :
  in_training data_ labels_ options d this ->
  exists m, marginOne this inst = Return m.
Proof.
  intros H. destruct (in_training_shape _ _ _ _ _ H) as (k & kt & sg & a & x & ->).
  unfold marginOne. cbn [usew_ N default from_option id b alpha labels kernel data deref bind].
  match goal with
  | |- context [for_loop ?n 0 ?body ?s] =>
      destruct (for_loop_total (fun _ => True) body n 0 s) as (f & Hf & _);
        [| exact I | eauto]
  end.
  intros i f [_ Hi] _. cbn beta. simpl in Hi.
  destruct (data_ !! i) as [row|] eqn:Erow;
    [| apply lookup_ge_None_1 in Erow; lia].
  cbn [deref bind]. eauto.
Qed.

Lemma kernelResult_in_training (data_ : matrix) (labels_ : vec) options d this i j :
  in_training data_ labels_ options d this ->
  (i < length data_)%nat -> (j < length data_)%nat ->
  exists k, kernelResult this i j = Return k.
Proof.
  intros H Hi Hj.
  destruct (in_training_shape _ _ _ _ _ H) as (k & kt & sg & a & x & ->).
  unfold kernelResult. cbn [kernelResults kernel data].
  destruct (data_ !! i) as [xi|] eqn:Ei; [| apply lookup_ge_None_1 in Ei; lia].
  destruct (data_ !! j) as [xj|] eqn:Ej; [| apply lookup_ge_None_1 in Ej; lia].
  destruct (opt_memoize options); cbn [deref bind].
  - rewrite lookup_map, Ei. cbn [option_map deref bind]. eauto.
  - rewrite Ei, Ej. cbn [deref bind]. eauto.
Qed.

Ltac throw_cases H :=
  repeat (cbn [bind] in H;
    match type of H with
    | Return _ = Throw _ => discriminate H
    | OutOfFuel = Throw _ => discriminate H
    | bind ?m _ = _ => let E := fresh "E" in destruct m eqn:E
    | (let '(_, _) := ?x in _) = _ => let E := fresh "E" in destruct x eqn:E
    | (if ?c then _ else _) = _ => let E := fresh "E" in destruct c eqn:E
    end).

Lemma smo_step_no_throw p fuel (data_ : matrix) (labels_ : vec) options d i this ac rc e :
  in_training data_ labels_ options d this -> (i < length data_)%nat ->
  smo_step Math_random p fuel data_ labels_ i (this, ac, rc) <> Throw e.
Proof.
  intros Hin Hi H. unfold smo_step in H.
  assert (HN : N this = Some (length data_)).
  { destruct (in_training_shape _ _ _ _ _ Hin) as (k & kt & sg & a & x & ->).
    reflexivity. }
  assert (Halpha : exists a, alpha this = Some a).
  { destruct (in_training_shape _ _ _ _ _ Hin) as (k & kt & sg & a & x & ->).
    cbn. eauto. }
  destruct Halpha as (a & Halpha).
  destruct (data_ !! i) as [xi|] eqn:Exi; [| apply lookup_ge_None_1 in Exi; lia].
  destruct (marginOne_in_training _ _ _ _ _ xi Hin) as (mi & Hmi).
  rewrite Halpha, HN in H. cbn [deref bind default from_option id] in H.
  rewrite Hmi in H. cbn [bind] in H.
  destruct (_ || _) in H; [| discriminate H].
  destruct (pick_j _ _ _ _ _ _) as [[j rc1]| |] eqn:Ej; cbn [bind] in H;
    [| exact (pick_j_no_throw _ _ _ _ _ _ Ej) | discriminate H].
  apply pick_j_range in Ej; [| lia | lia].
  assert (Hj : (Z.to_nat j < length data_)%nat) by lia.
  unfold get in H. destruct (j <? 0)%Z eqn:Ez; [lia|].
  destruct (data_ !! Z.to_nat j) as [xj|] eqn:Exj;
    [| apply lookup_ge_None_1 in Exj; lia].
  destruct (marginOne_in_training _ _ _ _ _ xj Hin) as (mj & Hmj).
  cbn [deref bind] in H. rewrite Hmj in H. cbn [bind] in H.
  destruct (kernelResult_in_training _ _ _ _ _ i (Z.to_nat j) Hin Hi Hj) as (kij & Hkij).
  destruct (kernelResult_in_training _ _ _ _ _ i i Hin Hi Hi) as (kii & Hkii).
  destruct (kernelResult_in_training _ _ _ _ _ (Z.to_nat j) (Z.to_nat j) Hin Hj Hj)
    as (kjj & Hkjj).
  rewrite Hkij, Hkii, Hkjj in H.
  throw_cases H.
Qed.


Lemma smo_loop_no_throw p fuel (data_ : matrix) (labels_ : vec) options d this rc
    iter passes e :
  in_training data_ labels_ options d this ->
  smo_loop Math_random p fuel data_ labels_ this rc iter passes <> Throw e.
Proof.
  revert this rc iter passes.
  induction fuel as [|fuel IH]; intros this rc iter passes Hin; simpl.
  - destruct (_ && _); discriminate.
  - destruct (_ && _); [| discriminate].
    destruct (for_loop _ _ _ _) as [[[t ac] rc1]| |] eqn:E; cbn [bind];
      [| | discriminate].
    + apply IH.
      apply (for_loop_inv (fun st => in_training data_ labels_ options d (fst (fst st))))
        in E; [exact E | | exact Hin].
      intros j [[x1 x2] x3] [[y1 y2] y3] _ Hx Hy. cbn [fst] in *.
      unfold in_training in *. eapply smo_step_frame; eauto.
    + exfalso. revert E.
      apply (for_loop_no_throw
               (fun st => in_training data_ labels_ options d (fst (fst st))));
        [| exact Hin].
      intros j [[x1 x2] x3] Hj Hx. cbn [fst] in *. split.
      * apply (smo_step_no_throw _ _ _ _ options d); [exact Hx | lia].
      * intros [[y1 y2] y3] Hy. cbn [fst].
        unfold in_training in *. eapply smo_step_frame; eauto.
Qed.

(** On a fresh object [train] throws exactly when there is no first row. *)
Lemma train_throws fuel (data_ : matrix) (labels_ : vec) options e :
  train Math_exp Math_random fuel new_SVM data_ labels_ options = Throw e
  <-> data_ = [] /\ e = TypeError.
Proof.
  unfold train. destruct data_ as [|row0 rest]; cbn [lookup list_lookup deref bind].
  - split; [intros H; inversion H; auto | intros [_ ->]; reflexivity].
  - split; [| intros [H _]; discriminate H].
    intros H. exfalso.
    destruct (smo_loop _ _ _ _ _ _ _ _ _) as [[[t rc] iter]| |] eqn:E;
      cbn [bind] in H; try discriminate H.
    revert E. apply (smo_loop_no_throw _ _ _ _ options (length row0)).
    apply frame_initialize.
Qed.

(** C5, as the code has it: serializing a machine with a custom kernel
    raises nothing.  The call writes one line on the console and returns the
    empty object. *)
Theorem toJSON_custom_kernel m :
  kernelType m = Some "custom"%string ->
  toJSON m
  = (["Can't save this SVM because it's using custom, unsupported kernel..."%string],
     Return empty_JSON).
Proof. intros H. unfold toJSON. rewrite H. reflexivity. Qed.

Lemma train_rbf_kernelType fuel (data_ : matrix) (labels_ : vec) options stats m :
  opt_kernel options = Some (KernelName "rbf") ->
  train Math_exp Math_random fuel new_SVM data_ labels_ options = Return (stats, m) ->
  kernelType m = Some "rbf"%string.
Proof.
  intros Hk Htrain.
  destruct (train_Return _ _ _ _ _ _ _ Htrain) as (row0 & this1 & rc & Hrow & Hloop & Hm).
  pose proof (smo_loop_frame _ _ _ _ _ _ _ _ _ _ _ _
                (frame_initialize new_SVM data_ labels_ options (length row0)) Hloop)
    as (a & x & Hthis1).
  unfold initialize, choose_kernel in Hthis1. rewrite Hk in Hthis1.
  cbn in Hthis1. subst m this1. reflexivity.
Qed.

(** C8, as the code has it: an RBF width that is zero or negative does not
    make [train] fail.  On a fresh object [train] throws only when there is
    no training row; when it returns, a zero width has been replaced by the
    default 0.5 and a negative width is kept as it was given, and the kernel
    is the RBF kernel of that stored width. *)
Theorem train_rbf_sigma fuel (data_ : matrix) (labels_ : vec) options (q : Q) :
  opt_kernel options = Some (KernelName "rbf") ->
  opt_rbfsigma options = Some (Fin q) ->
  q <= 0 ->
  (forall e, train Math_exp Math_random fuel new_SVM data_ labels_ options = Throw e ->
             data_ = [])
  /\ (forall stats m,
        train Math_exp Math_random fuel new_SVM data_ labels_ options
        = Return (stats, m) ->
        kernelType m = Some "rbf"%string /\
        rbfSigma m = Some (if Qeq_bool q 0 then Fin (1 # 2) else Fin q) /\
        kernel m = Some (makeRbfKernel Math_exp (rbfSigma m))).
Proof.
  intros Hk Hsigma Hq. split.
  - intros e He. apply train_throws in He. tauto.
  - intros stats m Htrain.
    pose proof (train_rbf_kernelType _ _ _ _ _ _ Hk Htrain) as Hkt.
    destruct (trained_rbf_shape _ _ _ _ _ _ Htrain Hkt)
      as (sv & lb & al & bias & d & cache & ->).
    rewrite Hsigma. cbn [kernelType rbfSigma kernel or_default truthy].
    destruct (Qeq_bool q 0); auto.
Qed.


(** *** Further properties of the machine *)

(** X1: on a fresh object, training without a sample throws, at the read of
    [data[0].length], and this is the only way [train] throws. *)
Theorem train_without_samples fuel (labels_ : vec) options :
  train Math_exp Math_random fuel new_SVM [] labels_ options = Throw TypeError
  /\ (forall (data_ : matrix) e,
        train Math_exp Math_random fuel new_SVM data_ labels_ options = Throw e ->
        data_ = []).
Proof.
  split; [reflexivity|].
  intros data_ e H. apply train_throws in H. tauto.
Qed.

(** X2: [fromJSON] on an object whose kernel type is neither linear nor RBF
    raises nothing.  It writes one line on the console and leaves the kernel
    and the weights of the machine as they were. *)
Theorem fromJSON_unrecognized_kernel this json :
  json_kernelType json <> Some "linear"%string ->
  json_kernelType json <> Some "rbf"%string ->
  fst (fromJSON Math_exp this json)
  = [("ERROR! unrecognized kernel type."
        ++ default "undefined" (json_kernelType json))%string]
  /\ kernel (snd (fromJSON Math_exp this json)) = kernel this
  /\ usew_ (snd (fromJSON Math_exp this json)) = usew_ this
  /\ w (snd (fromJSON Math_exp this json)) = w this.
Proof.
  intros Hlin Hrbf. unfold fromJSON.
  destruct (option_eqb String.eqb (json_kernelType json) (Some "linear"%string))
    eqn:E1; [apply option_eqb_string in E1; contradiction|].
  destruct (option_eqb String.eqb (json_kernelType json) (Some "rbf"%string))
    eqn:E2; [apply option_eqb_string in E2; contradiction|].
  repeat split.
Qed.

Lemma mapM_lookup {A B : Type} (f : A -> outcome B) (l : list A) (ys : list B) :
  mapM f l = Return ys ->
  length ys = length l
  /\ forall i x, l !! i = Some x -> exists y, ys !! i = Some y /\ f x = Return y.
Proof.
  revert ys. induction l as [|x l IH]; intros ys H; cbn [mapM] in H.
  - inversion H; subst. split; [reflexivity|]. intros i x Hx. discriminate Hx.
  - destruct (f x) as [y| |] eqn:Ef; cbn [bind] in H; try discriminate.
    destruct (mapM f l) as [ys'| |]; cbn [bind] in H; try discriminate.
    inversion H; subst. destruct (IH ys' eq_refl) as [Hlen Hall].
    split; [cbn; congruence|].
    intros [|i] x' Hx'; cbn in Hx'.
    + inversion Hx'; subst. exists y. auto.
    + apply Hall, Hx'.
Qed.

(** X3: [predict] labels the vectors one by one and in their order: when it
    returns, its result has one label per vector, and the label at each
    place is what [predictOne] returns for the vector at that place. *)
Theorem predict_in_order this (xs : matrix) (ys : vec) :
  predict this xs = Return ys ->
  length ys = length xs
  /\ forall i x, xs !! i = Some x ->
                 exists y, ys !! i = Some y /\ predictOne this x = Return y.
Proof.
  rewrite predict_mapM. apply mapM_lookup.
Qed.

(** X4: after [train] on a fresh object, the flag [usew_] is set exactly
    when the kernel is linear and the training rows have at least one
    feature. *)
Theorem usew_after_train fuel (data_ : matrix) (labels_ : vec) options stats m :
  train Math_exp Math_random fuel new_SVM data_ labels_ options = Return (stats, m) ->
  usew_ m = true
  <-> kernelType m = Some "linear"%string
      /\ exists d, D m = Some d /\ (0 < d)%nat.
Proof.
  intros Htrain.
  destruct (train_Return _ _ _ _ _ _ _ Htrain) as (row0 & this1 & rc & Hrow & Hloop & Hm).
  pose proof (smo_loop_frame _ _ _ _ _ _ _ _ _ _ _ _
                (frame_initialize new_SVM data_ labels_ options (length row0)) Hloop)
    as (a & x & Hthis1).
  destruct (initialize_shape new_SVM data_ labels_ options (length row0))
    as (k & kt & sg & Hck & Hinit).
  rewrite Hinit in Hthis1. cbn in Hthis1. subst m this1.
  unfold finish. cbn.
  destruct (String.eqb_spec kt "linear") as [->|Hkt]; cbn.
  - destruct (length row0) as [|d]; cbn.
    + split; [discriminate|]. intros (_ & d & Hd & Hpos).
      inversion Hd; subst. lia.
    + split; [| reflexivity]. intros _. split; [reflexivity|].
      exists (S d). split; [reflexivity | lia].
  - split; [discriminate|]. intros (Hk & _). congruence.
Qed.

End Machine.

(** ** Candidates and features *)

Local Close Scope Q_scope.
Local Open Scope string_scope.

Definition lower_case (s : string) : Prop := toLowerCase s = s.

Lemma lower_char_idem (c : ascii) : lower_char (lower_char c) = lower_char c.
Proof. destruct c as [[] [] [] [] [] [] [] []]; reflexivity. Qed.

Lemma toLowerCase_lower_case (s : string) : lower_case (toLowerCase s).
Proof.
  unfold lower_case. induction s as [|c s IH]; simpl; [reflexivity|].
  rewrite lower_char_idem, IH. reflexivity.
Qed.

Lemma lower_case_cons c s : lower_case (String c s) <-> lower_char c = c /\ lower_case s.
Proof.
  unfold lower_case. simpl. split.
  - intros H. inversion H as [[H1 H2]]. rewrite H1, H2. auto.
  - intros [-> ->]. reflexivity.
Qed.

Lemma lower_case_prefix sub s :
  String.prefix sub s = true -> lower_case s -> lower_case sub.
Proof.
  revert s. induction sub as [|a sub IH]; intros s Hp Hs; [reflexivity|].
  destruct s as [|b s]; simpl in Hp; [discriminate|].
  destruct (ascii_dec a b) as [->|]; [| discriminate].
  apply lower_case_cons in Hs. destruct Hs as [Hb Hs].
  apply lower_case_cons. split; [exact Hb | eapply IH; eauto].
Qed.

Lemma lower_case_includes s sub :
  includes s sub = true -> lower_case s -> lower_case sub.
Proof.
  induction s as [|c s IH]; cbn [includes].
  - destruct (String.prefix sub "") eqn:E; [| discriminate].
    intros _ Hs. eapply lower_case_prefix; eauto.
  - destruct (String.prefix sub (String c s)) eqn:E; intros H Hs.
    + eapply lower_case_prefix; eauto.
    + apply IH; [exact H|]. apply lower_case_cons in Hs. tauto.
Qed.

Lemma lower_case_word_prefix s : lower_case s -> lower_case (word_prefix s).
Proof.
  induction s as [|c s IH]; intros Hs; simpl; [reflexivity|].
  apply lower_case_cons in Hs. destruct Hs as [Hc Hs].
  destruct (is_word_char c); [| reflexivity].
  apply lower_case_cons. auto.
Qed.

Lemma lower_case_words_after_dots s :
  lower_case s -> Forall lower_case (words_after_dots s).
Proof.
  induction s as [|c s IH]; intros Hs; simpl; [constructor|].
  apply lower_case_cons in Hs. destruct Hs as [Hc Hs].
  pose proof (lower_case_word_prefix s Hs) as Hw.
  destruct (Ascii.eqb c "."); [| auto].
  destruct (word_prefix s); [auto | constructor; auto].
Qed.

Lemma lower_case_append s t : lower_case s -> lower_case t -> lower_case (s ++ t).
Proof.
  induction s as [|c s IH]; intros Hs Ht; simpl; [exact Ht|].
  apply lower_case_cons in Hs. destruct Hs as [Hc Hs].
  apply lower_case_cons. auto.
Qed.

Lemma lower_case_lookup (l : list string) i :
  Forall lower_case l -> lower_case (default "" (l !! i)).
Proof.
  intros Hl. destruct (l !! i) as [x|] eqn:E; [| reflexivity].
  simpl. eapply Forall_lookup_1; eauto.
Qed.

Section Candidates.
Variable dictionary_words : list string.
Variable dictionary_tlds : list string.

Lemma lower_case_longest_tld ending last :
  lower_case ending -> lower_case (longest_tld dictionary_tlds ending last).
Proof.
  intros He. unfold longest_tld.
  assert (H : lower_case "") by reflexivity. revert H.
  generalize "" as tld.
  induction dictionary_tlds as [|item l IH]; intros tld Ht; simpl; [exact Ht|].
  apply IH.
  destruct (includes ending item) eqn:E; simpl; [| exact Ht].
  destruct (_ && _); [| exact Ht].
  eapply lower_case_includes; eauto.
Qed.

Lemma tldIsWord_spec tld :
  tldIsWord dictionary_words tld = true
  <-> exists item, item ∈ dictionary_words /\ tld = toLowerCase item.
Proof.
  unfold tldIsWord.
  assert (H : forall found,
             fold_left
               (fun found item =>
                  if String.eqb tld (toLowerCase item) then true else found)
               dictionary_words found = true
             <-> found = true
                 \/ exists item, item ∈ dictionary_words /\ tld = toLowerCase item).
  { induction dictionary_words as [|x l IH]; intros found; simpl.
    - split; [auto|]. intros [H|(item & Hin & _)]; [exact H|].
      apply not_elem_of_nil in Hin. contradiction.
    - rewrite IH. split.
      + intros [H|(item & Hin & Heq)].
        * destruct (String.eqb_spec tld (toLowerCase x)) as [Heq|_]; [| auto].
          right. exists x. split; [apply list_elem_of_here | exact Heq].
        * right. exists item. split; [apply list_elem_of_further, Hin | exact Heq].
      + intros [->|(item & Hin & Heq)].
        * left. destruct (String.eqb tld (toLowerCase x)); reflexivity.
        * apply elem_of_cons in Hin. destruct Hin as [->|Hin].
          -- left. rewrite Heq, String.eqb_refl. reflexivity.
          -- right. eauto. }
  rewrite H. split; [intros [?|?]; [discriminate | assumption] | auto].
Qed.

Lemma match_words_after_dots_nonempty s words :
  match_words_after_dots s = Some words -> exists wd rest, words = wd :: rest.
Proof.
  unfold match_words_after_dots.
  destruct (words_after_dots s) as [|wd rest]; [discriminate|].
  intros H. inversion H. eauto.
Qed.

Lemma match_words_after_dots_lower_case s words :
  lower_case s -> match_words_after_dots s = Some words -> Forall lower_case words.
Proof.
  intros Hs. unfold match_words_after_dots.
  pose proof (lower_case_words_after_dots s Hs) as H.
  destruct (words_after_dots s); [discriminate|].
  intros E. inversion E; subst. exact H.
Qed.

(** C3: on a lower-cased token without [/], [?] and [www], whenever
    [Prefiltering] returns, the tail it returns is in lower case and the
    candidate flag is true exactly when that tail is not [com], not [org],
    has no dot and is, up to case, a word of the dictionary; the call
    returns exactly when the token starts with a word character and has a
    word after some dot.  So [you.you] is a candidate with tail [you] when
    the dictionary has the word, and [google.com] is none. *)
Theorem Prefiltering_candidate_rule :
  (forall url0 : string,
     toLowerCase url0 = url0 ->
     includes url0 "/" = false -> includes url0 "?" = false ->
     includes url0 "www" = false ->
     (forall candidate tld firstword otherwords,
        Prefiltering dictionary_words dictionary_tlds url0
        = Return (candidate, tld, firstword, otherwords) ->
        toLowerCase tld = tld /\
        (candidate = true
         <-> tld <> "com" /\ tld <> "org" /\ includes tld "." = false /\
             exists item, item ∈ dictionary_words
                          /\ toLowerCase item = toLowerCase tld))
     /\ (returns (Prefiltering dictionary_words dictionary_tlds url0)
         <-> match_leading_word url0 <> None
             /\ match_words_after_dots url0 <> None))
  /\ ((exists item, item ∈ dictionary_words /\ toLowerCase item = "you") ->
      Prefiltering dictionary_words dictionary_tlds "you.you"
      = Return (true, "you", "you", Some ["you"]))
  /\ Prefiltering dictionary_words dictionary_tlds "google.com"
     = Return (false, "com", "google", Some ["com"]).
Proof.
  split; [| split].
  - intros url0 Hlow Hslash Hquery Hwww.
    unfold Prefiltering. rewrite Hlow, Hslash, Hquery, Hwww. cbn [orb].
    destruct (match_leading_word url0) as [firstword|]; cbn [deref bind].
    2:{ split; [intros ? ? ? ? H; discriminate H|].
        unfold returns. split; [intros [a Ha]; discriminate Ha | intros [H1 H2]; congruence]. }
    destruct (match_words_after_dots url0) as [words|] eqn:Ewords; cbn [deref bind].
    2:{ split; [intros ? ? ? ? H; discriminate H|].
        unfold returns. split; [intros [a Ha]; discriminate Ha | intros [H1 H2]; congruence]. }
    destruct (match_words_after_dots_nonempty _ _ Ewords) as (wd & rest & ->).
    pose proof (match_words_after_dots_lower_case _ _ Hlow Ewords) as Hwords.
    set (chosen :=
           if (1 <? length (wd :: rest))%nat
           then Return (longest_tld dictionary_tlds
                          (default "" ((wd :: rest) !! (length (wd :: rest) - 2)%nat)
                           ++ "." ++ default "" ((wd :: rest) !! (length (wd :: rest) - 1)%nat))
                          (default "" ((wd :: rest) !! (length (wd :: rest) - 1)%nat)))
           else deref ((wd :: rest) !! 0%nat)).
    assert (Hchosen : exists tld, chosen = Return tld /\ lower_case tld).
    { unfold chosen. destruct (1 <? length (wd :: rest))%nat.
      - eexists. split; [reflexivity|].
        apply lower_case_longest_tld.
        apply lower_case_append; [apply lower_case_lookup, Hwords|].
        apply lower_case_append; [reflexivity | apply lower_case_lookup, Hwords].
      - exists wd. split; [reflexivity|]. inversion Hwords; assumption. }
    destruct Hchosen as (tld & -> & Htld). cbn [bind].
    split.
    + intros candidate tld' fw ows H.
      destruct (String.eqb_spec tld "com") as [Hcom|Hcom]; cbn [orb] in H.
      { inversion H; subst. split; [reflexivity|].
        split; [discriminate | intros (Hc & _); congruence]. }
      destruct (String.eqb_spec tld "org") as [Horg|Horg]; cbn [orb] in H.
      { inversion H; subst. split; [reflexivity|].
        split; [discriminate | intros (_ & Hc & _); congruence]. }
      destruct (includes tld ".") eqn:Hdot.
      { inversion H; subst. split; [exact Htld|].
        split; [discriminate | intros (_ & _ & Hd & _); congruence]. }
      destruct (tldIsWord dictionary_words tld) eqn:Hword;
        inversion H; subst; (split; [exact Htld|]).
      * apply tldIsWord_spec in Hword. destruct Hword as (item & Hin & Heq).
        split; [| reflexivity]. intros _. repeat split; auto.
        exists item. split; [exact Hin|]. rewrite Htld. auto.
      * split; [discriminate|]. intros (_ & _ & _ & item & Hin & Heq).
        rewrite Htld in Heq.
        assert (Hw : tldIsWord dictionary_words tld' = true)
          by (apply tldIsWord_spec; eauto).
        congruence.
    + unfold returns. split; [intros _; split; discriminate|]. intros _.
      destruct (String.eqb tld "com" || String.eqb tld "org" || includes tld ".");
        [eexists; reflexivity|].
      destruct (tldIsWord dictionary_words tld); eexists; reflexivity.
  - intros Hyou.
    assert (Hw : tldIsWord dictionary_words "you" = true).
    { apply tldIsWord_spec. destruct Hyou as (item & Hin & Heq). eauto. }
    unfold Prefiltering. set (is_word := tldIsWord dictionary_words) in *.
    clearbody is_word. vm_compute. vm_compute in Hw. rewrite Hw. reflexivity.
  - reflexivity.
Qed.

Lemma words_after_dots_without_dot s :
  includes s "." = false -> words_after_dots s = [].
Proof.
  induction s as [|c s IH]; cbn [includes words_after_dots]; [reflexivity|].
  destruct (String.prefix "." (String c s)) eqn:E; [discriminate|].
  intros H. cbn in E. destruct (Ascii.eqb_spec c ".") as [->|Hc].
  - cbn in E. destruct s; discriminate E.
  - apply IH, H.
Qed.

(** C6 fails on the code: a token without a dot (and without [/], [?] and
    [www]) makes [Prefiltering] throw, since the match of the words after
    dots is [null] and reading its [length] throws.  So it is on the token
    [hello]. *)
Theorem Prefiltering_token_without_dot :
  (forall url0,
      includes (toLowerCase url0) "." = false ->
      includes (toLowerCase url0) "/" = false ->
      includes (toLowerCase url0) "?" = false ->
      includes (toLowerCase url0) "www" = false ->
      Prefiltering dictionary_words dictionary_tlds url0 = Throw TypeError)
  /\ Prefiltering dictionary_words dictionary_tlds "hello" = Throw TypeError.
Proof.
  assert (Hthrow : forall url0,
             includes (toLowerCase url0) "." = false ->
             includes (toLowerCase url0) "/" = false ->
             includes (toLowerCase url0) "?" = false ->
             includes (toLowerCase url0) "www" = false ->
             Prefiltering dictionary_words dictionary_tlds url0 = Throw TypeError).
  { intros url0 Hdot Hslash Hquery Hwww. unfold Prefiltering.
    rewrite Hslash, Hquery, Hwww. unfold match_words_after_dots.
    rewrite (words_after_dots_without_dot _ Hdot).
    destruct (match_leading_word (toLowerCase url0)); reflexivity. }
  split; [exact Hthrow|].
  apply Hthrow; reflexivity.
Qed.

Variable regex : Type.
Variable RegExp : string -> string -> outcome regex.
Variable exec : regex -> string -> option regexp_match.
Variable matchAll : regex -> string -> list regexp_match.
Variable isNaN : string -> bool.
Variable send : string -> DNS.XMLHttpRequest.

Abbreviation calculateFeatures' :=
  (calculateFeatures dictionary_words regex RegExp exec matchAll isNaN send).
Abbreviation detection_pass' :=
  (detection_pass dictionary_words dictionary_tlds regex RegExp exec matchAll isNaN send).

Ltac bind_cases H :=
  repeat (cbn [bind] in H;
    match type of H with
    | Return _ = Return _ => fail 1
    | bind ?m _ = _ => let E := fresh "E" in destruct m eqn:E
    | (let '(_, _) := ?x in _) = _ => let E := fresh "E" in destruct x eqn:E
    | Throw _ = Return _ => discriminate H
    | OutOfFuel = Return _ => discriminate H
    end).

Lemma tld_flags_one_hot (tld : string) :
  let flag (name : string) := if String.eqb tld name then 1%nat else 0%nat in
  let fs := [flag "net"; flag "co"; flag "gov"; flag "it"; flag "my";
             flag "no"; flag "so"; flag "you"; flag "to"; flag "zip"] in
  Forall (fun f => f = 0 \/ f = 1)%nat fs /\ (list_sum fs <= 1)%nat.
Proof.
  cbv beta zeta.
  assert (Hflags : forall fs : list nat,
             forallb (fun f => (f <=? 1)%nat) fs = true ->
             Forall (fun f => f = 0 \/ f = 1)%nat fs).
  { intros fs Hfs. apply Forall_forall. intros f Hf.
    rewrite forallb_forall in Hfs. apply list_elem_of_In, Hfs, Nat.leb_le in Hf. lia. }
  repeat match goal with
  | |- context [String.eqb tld ?name] =>
      let E := fresh "E" in
      destruct (String.eqb tld name) eqn:E;
        [apply String.eqb_eq in E; subst tld; vm_compute;
         split; [apply Hflags; reflexivity | lia] |]
  end.
  vm_compute. split; [apply Hflags; reflexivity | lia].
Qed.

(** C9: what [calculateFeatures] adds to the list of elements has exactly
    one of [beginning], [middle], [end] at 1 and the two others at 0, and
    its ten TLD flags are 0 or 1 with at most one of them at 1; so has every
    element that a pass over the tokens collects. *)
Theorem calculateFeatures_flags :
  (forall firstword otherwords i urls tld arr texts arr',
      calculateFeatures' firstword otherwords i urls tld arr texts = Return arr' ->
      exists new, arr' = (arr ++ new)%list
                  /\ Forall (fun e => one_position e /\ at_most_one_tld e) new)
  /\ (forall urls texts arr,
        detection_pass' urls texts = Return arr ->
        Forall (fun e => one_position e /\ at_most_one_tld e) arr).
Proof.
  assert (Hcall : forall firstword otherwords i urls tld arr texts arr',
             calculateFeatures' firstword otherwords i urls tld arr texts = Return arr' ->
             exists new, arr' = (arr ++ new)%list
                         /\ Forall (fun e => one_position e /\ at_most_one_tld e) new).
  { intros firstword otherwords i urls tld arr texts arr'.
    intros H. unfold calculateFeatures in H.
    bind_cases H.
    inversion H as [Harr]. clear H.
    unfold DNS.Query, DNS._callApi.
    destruct (_ && _).
    - eexists [_]. split; [reflexivity|]. constructor; [| constructor].
      split.
      + unfold one_position. cbn.
        match goal with
        | Hp : (if ?c then _ else _) = _ |- _ =>
            destruct c; [| match type of Hp with
                           | (if ?c' then _ else _) = _ => destruct c' end];
            inversion Hp; subst; auto
        end.
      + unfold at_most_one_tld, tld_flags. cbn. apply tld_flags_one_hot.
    - exists []. split; [rewrite app_nil_r; reflexivity | constructor]. }
  split; [exact Hcall|].
  intros urls texts arr H. unfold detection_pass in H.
  apply (for_loop_inv (Forall (fun e => one_position e /\ at_most_one_tld e))) in H;
    [exact H | | constructor].
  intros i x y _ Hx Hy. cbn beta in Hy.
  destruct (Prefiltering _ _ _) as [[[[c t] f] o]| |]; cbn [bind] in Hy;
    try discriminate.
  destruct c; [| congruence].
  destruct o as [ws|]; cbn [deref bind] in Hy; [| discriminate].
  apply Hcall in Hy. destruct Hy as (new & -> & Hnew).
  apply Forall_app. auto.
Qed.

(** C7, as the code has it: the lookup decides whether the candidate is
    handed on at all.  When the request is done with status 200 the element
    is appended, with [ns] at 1 for an empty list of records and at 0
    otherwise; in every other case nothing is appended, and the elements
    collected before are kept. *)
Theorem lookup_decides_submission firstword otherwords i urls tld arr texts arr' s :
  urls !! i = Some s ->
  calculateFeatures' firstword otherwords i urls tld arr texts = Return arr' ->
  if (DNS.readyState (send s) =? DNS.DONE)%nat && (DNS.status (send s) =? 200)%nat
  then exists e, arr' = (arr ++ [e])%list /\ url e = s /\
                 ns e = match DNS.response (send s) with
                        | DNS.Records [] => 1%nat
                        | _ => 0%nat
                        end
  else arr' = arr.
Proof.
  intros Hs H. unfold calculateFeatures in H. rewrite Hs in H.
  bind_cases H.
  match goal with
  | Hd : deref (Some s) = Return ?a |- _ => cbn in Hd; inversion Hd; subst a
  end.
  inversion H as [Harr]. clear H.
  unfold DNS.Query, DNS._callApi.
  destruct (_ && _); [| reflexivity].
  eexists. split; [reflexivity|]. split; [reflexivity|]. cbn [ns].
  destruct (DNS.response (send s)) as [[|item items]|]; reflexivity.
Qed.

(** C10, as the code has it: when the short-segment test holds the flag is
    1, with or without a hyphen; the hyphen is looked for only when that
    test fails, and there a hyphen in the first word puts the flag at 0. *)
Theorem string_flag_short_words firstword otherwords url_i :
  ((Z.of_nat (short_words firstword otherwords)
    = Z.of_nat (length otherwords) - 1)%Z ->
   string_flag dictionary_words isNaN firstword otherwords url_i = 1%nat)
  /\ ((Z.of_nat (short_words firstword otherwords)
       <> Z.of_nat (length otherwords) - 1)%Z ->
      includes firstword "-" = true ->
      string_flag dictionary_words isNaN firstword otherwords url_i = 0%nat).
Proof.
  unfold string_flag. cbv zeta. split.
  - intros H. rewrite (proj2 (Z.eqb_eq _ _) H). reflexivity.
  - intros H Hdash. rewrite (proj2 (Z.eqb_neq _ _) H).
    unfold containsDash. rewrite Hdash. reflexivity.
Qed.

End Candidates.

(** ** Further properties of the machine *)

Local Close Scope string_scope.
Local Open Scope Q_scope.

(** *** Finite numbers and lists of rationals *)

Lemma lt_Fin_true x y : lt (Fin x) (Fin y) = true <-> x < y.
Proof.
  simpl. rewrite Qlt_alt. destruct (x ?= y); split; congruence.
Qed.

Lemma lt_Fin_false x y : lt (Fin x) (Fin y) = false <-> y <= x.
Proof.
  rewrite <- not_true_iff_false, lt_Fin_true. split; [apply Qnot_lt_le | apply Qle_not_lt].
Qed.


Lemma finite_add a c : finite a -> finite c -> finite (add a c).
Proof. intros [x ->] [y ->]. eexists. reflexivity. Qed.
Lemma finite_neg a : finite a -> finite (neg a).
Proof. intros [x ->]. eexists. reflexivity. Qed.
Lemma finite_sub a c : finite a -> finite c -> finite (sub a c).
Proof. intros Ha Hc. apply finite_add; [exact Ha | apply finite_neg, Hc]. Qed.
Lemma finite_mul a c : finite a -> finite c -> finite (mul a c).
Proof. intros [x ->] [y ->]. eexists. reflexivity. Qed.
Lemma finite_Fin q : finite (Fin q).
Proof. eexists. reflexivity. Qed.
Lemma finite_if (c : bool) a1 a2 : finite a1 -> finite a2 -> finite (if c then a1 else a2).
Proof. destruct c; auto. Qed.

Create HintDb finite.
#[local] Hint Resolve finite_add finite_neg finite_sub finite_mul finite_Fin finite_if : finite.












Lemma lt_of_nat_false (a a' : nat) (m : num) :
  lt (of_nat a) m = false -> (a <= a')%nat -> lt (of_nat a') m = false.
Proof.
  unfold of_nat. destruct m as [| | |q]; try reflexivity; [discriminate|].
  rewrite !lt_Fin_false. intros H Hle.
  eapply Qle_trans; [exact H|]. rewrite <- Zle_Qle. lia.
Qed.

Lemma lt_of_nat (a b0 : nat) : lt (of_nat a) (of_nat b0) = true <-> (a < b0)%nat.
Proof.
  unfold of_nat. rewrite lt_Fin_true, <- Zlt_Qlt. lia.
Qed.


Lemma for_loop_ext {St : Type} (body body' : nat -> St -> outcome St) (n lo : nat) (s : St) :
  (forall i x, (lo <= i < lo + n)%nat -> body i x = body' i x) ->
  for_loop n lo body s = for_loop n lo body' s.
Proof.
  revert lo s. induction n as [|n IH]; intros lo s H; simpl; [reflexivity|].
  rewrite (H lo s) by lia. destruct (body' lo s); simpl; try reflexivity.
  apply IH. intros i x Hi. apply H. lia.
Qed.

Lemma fold_left_fill {A : Type} (f : nat -> A) (n : nat) (pre : list (option A)) :
  fold_left (fun w_ j => <[j := Some (f j)]> w_) (seq (length pre) n)
            (pre ++ replicate n None)
  = pre ++ map (fun j => Some (f j)) (seq (length pre) n).
Proof.
  revert pre. induction n as [|n IH]; intros pre; simpl; [reflexivity|].
  replace (<[length pre := Some (f (length pre))]> (pre ++ None :: replicate n None))
    with ((pre ++ [Some (f (length pre))]) ++ replicate n None).
  - replace (S (length pre)) with (length (pre ++ [Some (f (length pre))]))
      by (rewrite length_app; simpl; lia).
    rewrite IH, <- app_assoc. reflexivity.
  - rewrite <- app_assoc. simpl.
    rewrite insert_app_r_alt by lia. rewrite Nat.sub_diag. reflexivity.
Qed.

Lemma add_NaN_r a : add a NaN = NaN.
Proof. destruct a; reflexivity. Qed.

Lemma mul_NaN_r a : mul a NaN = NaN.
Proof. destruct a; reflexivity. Qed.

Lemma fold_left_NaN (g : nat -> num) (l : list nat) :
  fold_left (fun f j => add f (g j)) l NaN = NaN.
Proof. induction l as [|j l IH]; simpl; [reflexivity | exact IH]. Qed.

Lemma fold_left_reaches_NaN (g : nat -> num) (l : list nat) (j0 : nat) (v : num) :
  j0 ∈ l -> g j0 = NaN -> fold_left (fun f j => add f (g j)) l v = NaN.
Proof.
  revert v. induction l as [|j l IH]; intros v Hin Hg.
  - apply not_elem_of_nil in Hin. contradiction.
  - simpl. apply elem_of_cons in Hin. destruct Hin as [<- | Hin].
    + rewrite Hg, add_NaN_r. apply fold_left_NaN.
    + apply IH; assumption.
Qed.

Lemma marginOne_short_vector this (d : nat) (weight x : vec) :
  usew_ this = true -> D this = Some d -> w this = Some weight ->
  (length x < d)%nat \/ (length weight < d)%nat ->
  marginOne this x = Return (Some NaN).
Proof.
  intros Hu HD Hw Hshort.
  unfold marginOne. rewrite Hu, HD, Hw. cbn [deref bind default from_option id].
  rewrite (for_loop_pure
             (fun j f => Some (add (ToNumber f)
                                   (mul (ToNumber (x !! j)) (ToNumber (weight !! j)))))).
  set (g := fun j => mul (ToNumber (x !! j)) (ToNumber (weight !! j))).
  assert (Hfold : forall l (f : option num),
             fold_left (fun (f : option num) j => Some (add (ToNumber f) (g j))) l f
             = match l with
               | [] => f
               | _ => Some (fold_left (fun f j => add f (g j)) l (ToNumber f))
               end).
  { induction l as [|j l IH]; intros f; [reflexivity|]. cbn [fold_left].
    rewrite IH. destruct l; reflexivity. }
  rewrite Hfold.
  destruct d as [|d']; [lia|]. cbn [seq]. set (l := (0%nat :: seq 1 d')).
  f_equal. f_equal.
  destruct Hshort as [Hx|Hwt].
  - apply (fold_left_reaches_NaN g l (length x)).
    + unfold l. change (0%nat :: seq 1 d') with (seq 0 (S d')).
      apply elem_of_seq. lia.
    + unfold g. rewrite (lookup_ge_None_2 x (length x)) by lia. reflexivity.
  - apply (fold_left_reaches_NaN g l (length weight)).
    + unfold l. change (0%nat :: seq 1 d') with (seq 0 (S d')).
      apply elem_of_seq. lia.
    + unfold g. rewrite (lookup_ge_None_2 weight (length weight)) by lia.
      apply mul_NaN_r.
Qed.

(** X14: a machine that uses its weights gives a vector with fewer than [D]
    entries the margin NaN and the label -1, and so it does for every vector
    when fewer than [D] weights are stored: the missing entries read as
    [undefined]. *)
Theorem short_vector_is_labelled_negative this (d : nat) (weight x : vec) :
  usew_ this = true -> D this = Some d -> w this = Some weight ->
  (length x < d)%nat \/ (length weight < d)%nat ->
  marginOne this x = Return (Some NaN)
  /\ predictOne this x = Return (Fin (-1)).
Proof.
  intros Hu HD Hw Hshort.
  pose proof (marginOne_short_vector this d weight x Hu HD Hw Hshort) as Hm.
  split; [exact Hm|].
  unfold predictOne. rewrite Hm. cbn [bind ToNumber]. reflexivity.
Qed.

(** *** The dual weights during training *)

Section Feasibility.
Variable Math_exp : num -> num.
Variable Math_random : nat -> draw.

Ltac step_cases H :=
  repeat (cbn [bind] in H;
    match type of H with
    | Return _ = Return _ => fail 1
    | bind ?m _ = _ => let E := fresh "E" in destruct m eqn:E
    | (let '(_, _) := ?x in _) = _ => let E := fresh "E" in destruct x eqn:E
    | (if ?c then _ else _) = _ => let E := fresh "E" in destruct c eqn:E
    | Throw _ = Return _ => discriminate H
    | OutOfFuel = Return _ => discriminate H
    end).


(** A training run: its labels [ys], the bound [c] that [options] sets, and
    a kernel that is finite on the rows. *)
Section Run.
Variables (data_ : matrix) (labels_ : vec) (options : Options) (d : nat).
Variables (c : Q) (ys : list Q).
Hypothesis HC : C (read_settings options) = Fin c.
Hypothesis Hc : 0 < c.
Hypothesis Hys : labels_ = map Fin ys.
Hypothesis Hbin : Forall (fun y => y = 1 \/ y = -1) ys.
Hypothesis Hlen : length ys = length data_.
Hypothesis Hker :
  forall xi xj, xi ∈ data_ -> xj ∈ data_ ->
                finite ((choose_kernel Math_exp new_SVM options).1.1 xi xj).








End Run.
End Feasibility.

Section Feasible_runs.
Variable Math_exp : num -> num.
Variable Math_random : nat -> draw.



End Feasible_runs.

(** *** The end of training *)

Section Termination.
Variable Math_exp : num -> num.
Variable Math_random : nat -> draw.

(** The fuel is enough for the search of a partner. *)
Lemma pick_j_returns (k fuel n i : nat) (j : Z) (rc : nat) :
  (k < fuel)%nat ->
  randi 0 (Z.of_nat n) (Math_random (rc + k)) <> Z.of_nat i ->
  exists r, pick_j Math_random fuel n i j rc = Return r.
Proof.
  revert fuel j rc. induction k as [|k IH]; intros fuel j rc Hk Hdraw.
  - destruct fuel as [|fuel]; [lia|]. simpl.
    destruct (j =? Z.of_nat i)%Z; [| eauto].
    rewrite Nat.add_0_r in Hdraw. apply Z.eqb_neq in Hdraw.
    destruct fuel; simpl; rewrite Hdraw; eauto.
  - destruct fuel as [|fuel]; [lia|]. simpl.
    destruct (j =? Z.of_nat i)%Z; [| eauto].
    apply IH; [lia|]. replace (S rc + k)%nat with (rc + S k)%nat by lia. exact Hdraw.
Qed.

Ltac fuel_cases :=
  repeat (cbn [bind];
    match goal with
    | |- exists r, Return _ = Return r => eexists; reflexivity
    | |- exists r, (let '(_, _) := ?x in _) = _ => destruct x
    | |- exists r, (if ?c then _ else _) = _ => destruct c
    end).

Lemma smo_step_returns p fuel (data_ : matrix) (labels_ : vec) options d i this ac rc :
  in_training Math_exp data_ labels_ options d this -> (i < length data_)%nat ->
  (forall rc0, exists r, pick_j Math_random fuel (length data_) i (Z.of_nat i) rc0 = Return r) ->
  exists r, smo_step Math_random p fuel data_ labels_ i (this, ac, rc) = Return r.
Proof.
  intros Hin Hi Hpick. unfold smo_step.
  assert (HN : N this = Some (length data_)).
  { destruct (in_training_shape _ _ _ _ _ _ Hin) as (k & kt & sg & a & x & ->).
    reflexivity. }
  assert (Halpha : exists a, alpha this = Some a).
  { destruct (in_training_shape _ _ _ _ _ _ Hin) as (k & kt & sg & a & x & ->).
    cbn. eauto. }
  destruct Halpha as (a & Halpha).
  destruct (data_ !! i) as [xi|] eqn:Exi; [| apply lookup_ge_None_1 in Exi; lia].
  destruct (marginOne_in_training _ _ _ _ _ _ xi Hin) as (mi & Hmi).
  rewrite Halpha, HN. cbn [deref bind default from_option id].
  rewrite Hmi. cbn [bind].
  destruct (_ || _); [| eauto].
  destruct (Hpick rc) as [[j rc1] Ej]. rewrite Ej. cbn [bind].
  apply pick_j_range in Ej; [| lia | lia].
  assert (Hj : (Z.to_nat j < length data_)%nat) by lia.
  unfold get. destruct (j <? 0)%Z eqn:Ez; [lia|].
  destruct (data_ !! Z.to_nat j) as [xj|] eqn:Exj;
    [| apply lookup_ge_None_1 in Exj; lia].
  destruct (marginOne_in_training _ _ _ _ _ _ xj Hin) as (mj & Hmj).
  cbn [deref bind]. rewrite Hmj. cbn [bind].
  destruct (kernelResult_in_training _ _ _ _ _ _ i (Z.to_nat j) Hin Hi Hj) as (kij & Hkij).
  destruct (kernelResult_in_training _ _ _ _ _ _ i i Hin Hi Hi) as (kii & Hkii).
  destruct (kernelResult_in_training _ _ _ _ _ _ (Z.to_nat j) (Z.to_nat j) Hin Hj Hj)
    as (kjj & Hkjj).
  rewrite Hkij, Hkii, Hkjj.
  fuel_cases.
Qed.

Lemma smo_loop_returns (B K : nat) p (data_ : matrix) (labels_ : vec) options d :
  lt (of_nat K) (maxiter p) = false ->
  (forall rc i, (i < length data_)%nat ->
     exists k, (k < B)%nat /\
               randi 0 (Z.of_nat (length data_)) (Math_random (rc + k)) <> Z.of_nat i) ->
  forall n fuel this rc iter passes,
    (K <= iter + n)%nat -> (n + B <= fuel)%nat ->
    in_training Math_exp data_ labels_ options d this ->
    exists r, smo_loop Math_random p fuel data_ labels_ this rc iter passes = Return r.
Proof.
  intros HK Hfair.
  induction n as [|n IH]; intros fuel this rc iter passes Hn Hfuel Hin.
  - assert (Hstop : lt (of_nat iter) (maxiter p) = false)
      by (apply (lt_of_nat_false K); [exact HK | lia]).
    destruct fuel; cbn [smo_loop]; rewrite Hstop, andb_false_r; eauto.
  - destruct fuel as [|fuel]; [lia|]. cbn [smo_loop].
    destruct (_ && _); [| eauto].
    match goal with
    | |- context [bind ?m _] =>
        assert (Hfl : exists st,
                   m = Return st
                   /\ in_training Math_exp data_ labels_ options d (fst (fst st)))
    end.
    { apply (for_loop_total
               (fun st => in_training Math_exp data_ labels_ options d (fst (fst st))));
        [| exact Hin].
      intros i [[x1 x2] x3] [_ Hi] Hx. cbn [fst] in Hx. simpl in Hi.
      destruct (smo_step_returns p fuel data_ labels_ options d i x1 x2 x3 Hx Hi)
        as [[[y1 y2] y3] Hy].
      * intros rc0. destruct (Hfair rc0 i Hi) as (k & Hk & Hdraw).
        apply (pick_j_returns k); [lia | exact Hdraw].
      * eexists. split; [exact Hy|]. cbn [fst].
        unfold in_training in *. eapply smo_step_frame; eauto. }
    destruct Hfl as ([[t ac] rc1] & Hfl & Hin').
    rewrite Hfl. cbn [bind]. apply IH; [lia | lia | exact Hin'].
Qed.

(** X8: with a bound on the iterations and draws that do not stick, training
    ends.  When [maxiter] is at most [K] and, from every point of the
    sequence of draws of [Math.random()], one of the next [B] draws selects an
    index other than [i], whatever [i], [train] on a training set with a first
    row returns as soon as the fuel reaches [K + B]. *)
Theorem train_returns_on_fair_draws (B K fuel : nat) (data_ : matrix) (labels_ : vec)
    options :
  data_ <> [] ->
  lt (of_nat K) (maxiter (read_settings options)) = false ->
  (forall rc i, (i < length data_)%nat ->
     exists k, (k < B)%nat /\
               randi 0 (Z.of_nat (length data_)) (Math_random (rc + k)) <> Z.of_nat i) ->
  (K + B <= fuel)%nat ->
  returns (train Math_exp Math_random fuel new_SVM data_ labels_ options).
Proof.
  intros Hdata HK Hfair Hfuel. unfold train, returns.
  destruct data_ as [|row0 rest] eqn:Edata; [congruence|]. rewrite <- Edata in *.
  replace (data_ !! 0%nat) with (Some row0) by (rewrite Edata; reflexivity).
  cbn [deref bind].
  destruct (smo_loop_returns B K (read_settings options) data_ labels_ options
              (length row0) HK Hfair K fuel
              (initialize Math_exp new_SVM data_ labels_ options (length row0)) 0 0 0)
    as [[[t rc] iter] Hloop]; [lia | lia | apply frame_initialize |].
  rewrite Hloop. cbn [bind]. eauto.
Qed.

Lemma smo_loop_iterations p fuel data_ labels_ (M P : nat) this rc iter passes this' rc' iter' :
  maxiter p = of_nat M -> numpasses p = of_nat P ->
  (passes <= iter)%nat -> (iter <= M)%nat ->
  smo_loop Math_random p fuel data_ labels_ this rc iter passes = Return (this', rc', iter') ->
  (Nat.min P M <= iter' <= M)%nat.
Proof.
  intros HM HP. revert this rc iter passes.
  induction fuel as [|fuel IH]; intros this rc iter passes Hpi HiM H; cbn [smo_loop] in H;
    rewrite HM, HP in H.
  - destruct (_ && _) eqn:E; [discriminate|]. inversion H; subst.
    apply andb_false_iff in E. rewrite <- !not_true_iff_false, !lt_of_nat in E. lia.
  - destruct (_ && _) eqn:E.
    + destruct (for_loop _ _ _ _) as [[[t ac] rc1]| |]; simpl in H; try discriminate.
      apply andb_true_iff in E. rewrite !lt_of_nat in E.
      apply IH in H; [exact H | destruct (ac =? 0)%nat; lia | lia].
    + inversion H; subst.
      apply andb_false_iff in E. rewrite <- !not_true_iff_false, !lt_of_nat in E. lia.
Qed.

(** X9: the number of iterations that [train] reports is at most [maxiter],
    and at least the smaller of [numpasses] and [maxiter], for settings that
    are natural numbers. *)
Theorem train_iterations fuel this (data_ : matrix) (labels_ : vec) options (M P : nat) stats m :
  maxiter (read_settings options) = of_nat M ->
  numpasses (read_settings options) = of_nat P ->
  train Math_exp Math_random fuel this data_ labels_ options = Return (stats, m) ->
  (Nat.min P M <= iters stats <= M)%nat.
Proof.
  intros HM HP Htrain.
  destruct (train_Return _ _ _ _ _ _ _ _ _ Htrain) as (row0 & this1 & rc & Hrow & Hloop & Hm).
  eapply smo_loop_iterations in Hloop; eauto; lia.
Qed.

End Termination.

(** *** The machine that training returns *)

Section Trained.
Variable Math_exp : num -> num.
Variable Math_random : nat -> draw.

Lemma trained_shape fuel (data_ : matrix) (labels_ : vec) options stats m :
  train Math_exp Math_random fuel new_SVM data_ labels_ options = Return (stats, m) ->
  exists k kt sg d a x,
    choose_kernel Math_exp new_SVM options = (k, kt, sg) /\
    m = finish (read_settings options)
          (mkSVM (Some data_) (Some labels_) (Some kt) sg (Some k)
                 (Some (length data_)) (Some d) (Some a) (Some x) false
                 (if opt_memoize options
                  then Some (map (fun xi => map (fun xj => k xi xj) data_) data_)
                  else None)
                 None)
          data_ labels_.
Proof.
  intros Htrain.
  destruct (train_Return _ _ _ _ _ _ _ _ _ Htrain) as (row0 & this1 & rc & Hrow & Hloop & Hm).
  pose proof (smo_loop_frame _ _ _ _ _ _ _ _ _ _ _ _ _
                (frame_initialize Math_exp new_SVM data_ labels_ options (length row0)) Hloop)
    as (a & x & Hthis1).
  destruct (initialize_shape Math_exp new_SVM data_ labels_ options (length row0))
    as (k & kt & sg & Hck & Hinit).
  rewrite Hinit in Hthis1. cbn in Hthis1. subst m this1.
  exists k, kt, sg, (length row0), a, x. auto.
Qed.

Lemma marginOne_over_samples this n (dt : matrix) a l k x :
  usew_ this = false -> N this = Some n -> data this = Some dt ->
  (n <= length dt)%nat ->
  alpha this = Some a -> labels this = Some l -> kernel this = Some k ->
  exists f, marginOne this x = Return f.
Proof.
  intros Hu HN Hd Hn Ha Hl Hk. unfold marginOne.
  rewrite Hu, HN, Hd, Ha, Hl, Hk. cbn [deref bind default from_option id].
  match goal with
  | |- context [for_loop n 0 ?body ?s] =>
      destruct (for_loop_total (fun _ => True) body n 0 s) as (f & Hf & _);
        [| exact I | eauto]
  end.
  intros i f [_ Hi] _. cbn beta. simpl in Hi.
  destruct (dt !! i) as [row|] eqn:Erow;
    [| apply lookup_ge_None_1 in Erow; lia].
  cbn [deref bind]. eauto.
Qed.

Lemma length_omap_lookup {A : Type} (l : list A) (ixs : list nat) :
  Forall (fun i => (i < length l)%nat) ixs ->
  length (omap (fun i => l !! i) ixs) = length ixs.
Proof.
  induction 1 as [|i ixs Hi _ IH]; [reflexivity|].
  destruct (lookup_lt_is_Some_2 l i Hi) as [x Hx].
  change (omap (fun i => l !! i) (i :: ixs))
    with (match l !! i with
          | Some y => y :: omap (fun i => l !! i) ixs
          | None => omap (fun i => l !! i) ixs
          end).
  rewrite Hx. simpl. f_equal. exact IH.
Qed.

(** X10: a machine that [train] returned labels every vector, whatever its
    length: [predictOne] returns 1 or -1 and does not throw. *)
Theorem trained_machine_labels_any_vector fuel (data_ : matrix) (labels_ : vec) options
    stats m (x : vec) :
  train Math_exp Math_random fuel new_SVM data_ labels_ options = Return (stats, m) ->
  predictOne m x = Return (Fin 1) \/ predictOne m x = Return (Fin (-1)).
Proof.
  intros Htrain.
  assert (Hm : exists f, marginOne m x = Return f).
  { destruct (trained_shape _ _ _ _ _ _ Htrain) as (k & kt & sg & d & a & bias & _ & ->).
    unfold finish. cbn [kernelType N D alpha default from_option id data labels b].
    destruct (option_eqb String.eqb (Some kt) (Some "linear"%string)).
    - destruct d as [|d].
      + eapply (marginOne_over_samples _ (length data_) data_); try reflexivity; cbn; lia.
      + eexists. apply marginOne_usew; try reflexivity.
        cbn [D]. rewrite length_weights. reflexivity.
    - eapply marginOne_over_samples; try reflexivity; cbn; lia. }
  destruct Hm as [f Hf]. unfold predictOne. rewrite Hf. cbn [bind].
  destruct (gt _ _); auto.
Qed.

(** X11: with a kernel other than the linear one, [train] keeps the support
    vectors only: the stored rows, labels and dual weights have the same
    length [N], every stored dual weight is above [alphatol], and every
    stored row is a training row. *)
Theorem train_keeps_the_support_vectors fuel (data_ : matrix) (labels_ : vec) options
    stats m :
  train Math_exp Math_random fuel new_SVM data_ labels_ options = Return (stats, m) ->
  kernelType m <> Some "linear"%string ->
  exists sv lb al,
    data m = Some sv /\ labels m = Some lb /\ alpha m = Some al /\
    N m = Some (length sv) /\ length lb = length sv /\ length al = length sv /\
    Forall (fun a => gt a (alphatol (read_settings options)) = true) al /\
    Forall (fun row => row ∈ data_) sv.
Proof.
  intros Htrain Hkt.
  destruct (trained_shape _ _ _ _ _ _ Htrain) as (k & kt & sg & d & a & bias & _ & ->).
  unfold finish in *.
  cbn [kernelType N D alpha default from_option id data labels b] in *.
  destruct (option_eqb String.eqb (Some kt) (Some "linear"%string)) eqn:E.
  { apply option_eqb_string in E. cbn in Hkt. congruence. }
  cbn [data labels alpha N].
  set (kept := List.filter _ _).
  assert (Hkept : Forall (fun i => (i < length data_)%nat) kept).
  { apply Forall_forall. intros i Hi.
    apply list_elem_of_In, filter_In in Hi. destruct Hi as [Hi _].
    apply in_seq in Hi. lia. }
  eexists _, _, _. repeat split.
  - rewrite length_map. symmetry. apply length_omap_lookup, Hkept.
  - rewrite length_map. symmetry. apply length_omap_lookup, Hkept.
  - apply Forall_map. apply Forall_forall. intros i Hi.
    apply list_elem_of_In, filter_In in Hi. tauto.
  - apply Forall_forall. intros row Hrow.
    apply list_elem_of_omap in Hrow. destruct Hrow as (i & _ & Hi).
    eapply list_elem_of_lookup_2, Hi.
Qed.

(** X12: after training with the linear kernel, [getWeights()] returns the
    stored weights [w] with the stored bias. *)
Theorem getWeights_after_linear_training fuel (data_ : matrix) (labels_ : vec) options
    stats m :
  train Math_exp Math_random fuel new_SVM data_ labels_ options = Return (stats, m) ->
  kernelType m = Some "linear"%string ->
  exists weight,
    w m = Some weight /\ getWeights m = Return (map Some weight, b m).
Proof.
  intros Htrain Hkt.
  destruct (trained_shape _ _ _ _ _ _ Htrain) as (k & kt & sg & d & a & bias & _ & ->).
  unfold finish in *.
  cbn [kernelType N D alpha default from_option id data labels b] in *.
  destruct (option_eqb String.eqb (Some kt) (Some "linear"%string)) eqn:E;
    [| cbn in Hkt; rewrite Hkt in E; discriminate E].
  eexists. split; [reflexivity|].
  unfold getWeights. cbn [D N alpha labels data b default from_option id deref bind].
  set (g := fun j : nat =>
              fold_left
                (fun s i =>
                   add s (mul (mul (ToNumber (a !! i)) (ToNumber (labels_ !! i)))
                              (ToNumber (default [] (data_ !! i) !! j))))
                (seq 0 (length data_)) (Fin 0)).
  rewrite (for_loop_ext _ (fun j w_ => Return (<[j := Some (g j)]> w_))).
  - rewrite for_loop_pure.
    pose proof (fold_left_fill g d []) as Hfill. cbn [length app] in Hfill.
    rewrite Hfill. unfold weights. rewrite map_map. reflexivity.
  - intros j w_ _.
    rewrite (for_loop_ext _
               (fun i s =>
                  Return (add s (mul (mul (ToNumber (a !! i)) (ToNumber (labels_ !! i)))
                                     (ToNumber (default [] (data_ !! i) !! j)))))).
    + rewrite for_loop_pure. reflexivity.
    + intros i s [_ Hi]. simpl in Hi.
      destruct (data_ !! i) as [row|] eqn:Erow;
        [| apply lookup_ge_None_1 in Erow; lia].
      reflexivity.
Qed.

End Trained.

(** *** Loaded machines *)

Section Loading.
Variable Math_exp : num -> num.

(** X15: the round trip loses a machine with a custom kernel: what [toJSON]
    returns loads, with an error line on the console, into a machine that
    labels every vector -1. *)
Theorem custom_machine_is_lost_in_the_round_trip m :
  kernelType m = Some "custom"%string ->
  exists json,
    snd (toJSON m) = Return json
    /\ fst (fromJSON Math_exp new_SVM json)
       = ["ERROR! unrecognized kernel type.undefined"%string]
    /\ (forall x, predictOne (snd (fromJSON Math_exp new_SVM json)) x = Return (Fin (-1)))
    /\ (forall xs, predict (snd (fromJSON Math_exp new_SVM json)) xs
                   = Return (map (fun _ => Fin (-1)) xs)).
Proof.
  intros Hkt. exists empty_JSON. unfold toJSON. rewrite Hkt. cbn [option_eqb].
  replace (String.eqb "custom" "custom") with true by reflexivity.
  split; [reflexivity|]. split; [reflexivity|]. split; [reflexivity|].
  intros xs. rewrite predict_mapM.
  induction xs as [|x xs IH]; [reflexivity|].
  cbn [mapM map]. rewrite IH. reflexivity.
Qed.

Lemma mapM_filter {A B : Type} (f : A -> outcome B) (P : B -> bool) (l : list A) (ys : list B) :
  mapM f l = Return ys ->
  map snd (List.filter (fun '(p, _) => P p) (combine ys l))
  = List.filter (fun x => match f x with Return y => P y | _ => false end) l.
Proof.
  revert ys. induction l as [|x l IH]; intros ys H; cbn [mapM] in H.
  - inversion H; subst. reflexivity.
  - destruct (f x) as [y| |] eqn:Ef; cbn [bind] in H; try discriminate.
    destruct (mapM f l) as [ys'| |]; cbn [bind] in H; try discriminate.
    inversion H; subst. cbn [combine List.filter]. rewrite Ef.
    destruct (P y); cbn [map snd]; rewrite (IH ys' eq_refl); reflexivity.
Qed.

Lemma mapM_map {A B C : Type} (f : B -> outcome C) (g : A -> B) (l : list A) :
  mapM f (map g l) = mapM (fun x => f (g x)) l.
Proof.
  induction l as [|x l IH]; cbn [map mapM]; [reflexivity|]. rewrite IH. reflexivity.
Qed.

(** X16: [predictTypos] keeps, in their order, exactly the elements whose
    feature vector the loaded machine labels 1. *)
Theorem predictTypos_keeps_the_elements_labelled_one (json : JSON)
    (url_elements_arr typo_arr : list URLElement) :
  predictTypos Math_exp json url_elements_arr = Return typo_arr ->
  typo_arr
  = List.filter
      (fun item =>
         match predictOne (snd (fromJSON Math_exp new_SVM json)) (feature_vector item) with
         | Return label => strict_eq label (Fin 1)
         | _ => false
         end)
      url_elements_arr.
Proof.
  unfold predictTypos. rewrite predict_mapM, mapM_map. intros H.
  destruct (mapM _ url_elements_arr) as [ys| |] eqn:E; cbn [bind] in H; try discriminate.
  inversion H; subst. apply (mapM_filter _ (fun p => strict_eq p (Fin 1))). exact E.
Qed.

(** X17: a linear model stored with more than the 17 features of the
    extension never warns: every element is labelled -1, and the tweet is
    posted. *)
Theorem oversized_model_never_warns (json : JSON) (d : nat) (weight : vec)
    (url_elements_arr : list URLElement) :
  json_kernelType json = Some "linear"%string ->
  json_D json = Some d -> json_w json = Some weight ->
  (17 < d)%nat ->
  exists typo_arr,
    predictTypos Math_exp json url_elements_arr = Return typo_arr
    /\ show_dialog typo_arr = Posted.
Proof.
  intros Hkt HD Hw Hd. exists []. split; [| reflexivity].
  unfold predictTypos. rewrite predict_mapM, mapM_map.
  set (m := snd (fromJSON Math_exp new_SVM json)).
  assert (Hneg : forall item, predictOne m (feature_vector item) = Return (Fin (-1))).
  { intros item. unfold predictOne.
    rewrite (marginOne_short_vector m d weight); [reflexivity | | | |].
    - unfold m, fromJSON. rewrite Hkt. reflexivity.
    - unfold m, fromJSON. rewrite Hkt. cbn. exact HD.
    - unfold m, fromJSON. rewrite Hkt. cbn. exact Hw.
    - left. unfold feature_vector. rewrite length_map. cbn. lia. }
  assert (Hall : mapM (fun x => predictOne m (feature_vector x)) url_elements_arr
                 = Return (map (fun _ => Fin (-1)) url_elements_arr)).
  { induction url_elements_arr as [|x l IH]; [reflexivity|].
    cbn [mapM map]. rewrite Hneg, IH. reflexivity. }
  rewrite Hall. cbn [bind]. f_equal.
  rewrite (mapM_filter _ (fun p => strict_eq p (Fin 1)) _ _ Hall).
  clear Hall. induction url_elements_arr as [|x l IH]; [reflexivity|].
  cbn [List.filter]. rewrite Hneg. exact IH.
Qed.
End Loading.

(** *** The cached weights *)















Section Shortcut.
Variable Math_exp : num -> num.
Variable Math_random : nat -> draw.


End Shortcut.

(** ** Further properties of the detection *)

Local Close Scope Q_scope.
Local Open Scope string_scope.

Lemma split_lines_nonempty (s : string) : split_lines s <> [].
Proof.
  destruct s as [|c s]; simpl; [discriminate|].
  destruct (is_line_break c); [discriminate|].
  destruct (split_lines s); discriminate.
Qed.

Lemma split_lines_app (s : string) (c : ascii) (t : string) :
  is_line_break c = true ->
  split_lines (s ++ String c t) = (split_lines s ++ split_lines t)%list.
Proof.
  intros Hc. induction s as [|a s IH]; simpl.
  - rewrite Hc. reflexivity.
  - rewrite IH. destruct (is_line_break a); [reflexivity|].
    destruct (split_lines s) as [|piece pieces] eqn:E; [| reflexivity].
    apply split_lines_nonempty in E. contradiction.
Qed.

Lemma split_lines_one (s : string) : no_line_break s -> split_lines s = [s].
Proof.
  unfold no_line_break. induction s as [|a s IH]; simpl; intros H; [reflexivity|].
  inversion H as [|? ? Ha Hs]; subst. rewrite Ha, (IH Hs). reflexivity.
Qed.

Lemma split_lines_pieces (s : string) : Forall no_line_break (split_lines s).
Proof.
  induction s as [|a s IH]; simpl.
  - repeat constructor.
  - destruct (is_line_break a) eqn:Ha.
    + constructor; [constructor | exact IH].
    + destruct (split_lines s) as [|piece pieces]; [repeat constructor; exact Ha|].
      inversion IH; subst. constructor; [| assumption].
      constructor; assumption.
Qed.

(** X18: [createWordDict] cuts the text at every line feed and carriage
    return: a text without line break is one word, a line break joins the
    words of its two sides, and no word holds a line break.  So a carriage
    return followed by a line feed leaves an empty word between two lines. *)
Theorem createWordDict_splits_at_line_breaks :
  (forall s, no_line_break s -> createWordDict s = [s])
  /\ (forall s c t, is_line_break c = true ->
        createWordDict (s ++ String c t) = (createWordDict s ++ createWordDict t)%list)
  /\ (forall s t,
        createWordDict (s ++ String "013" (String "010" t))
        = (createWordDict s ++ [""] ++ createWordDict t)%list)
  /\ (forall s, Forall no_line_break (createWordDict s)).
Proof.
  unfold createWordDict. split; [exact split_lines_one|].
  split; [exact split_lines_app|]. split; [| exact split_lines_pieces].
  intros s t. rewrite split_lines_app by reflexivity.
  change (String "010" t) with ("" ++ String "010" t).
  rewrite split_lines_app by reflexivity. reflexivity.
Qed.

Section Tails.
Variable dictionary_words : list string.
Variable dictionary_tlds : list string.

Lemma toLowerCase_empty (s : string) : toLowerCase s = "" <-> s = "".
Proof. destruct s; simpl; split; congruence. Qed.

(** X19: the outcomes of [Prefiltering] at the edges.  A token that does not
    start with a word character throws.  A token with [/], [?] or [www] is
    no candidate and gets the empty tail.  And the call throws in no other
    case than the first and that of a token, without those marks, that has
    no word after a dot; what it throws is a TypeError. *)
Theorem Prefiltering_outcomes (url0 : string) :
  (match_leading_word (toLowerCase url0) = None ->
   Prefiltering dictionary_words dictionary_tlds url0 = Throw TypeError)
  /\ (forall firstword,
        match_leading_word (toLowerCase url0) = Some firstword ->
        includes (toLowerCase url0) "/" || includes (toLowerCase url0) "?"
        || includes (toLowerCase url0) "www" = true ->
        Prefiltering dictionary_words dictionary_tlds url0
        = Return (false, "", firstword, match_words_after_dots (toLowerCase url0)))
  /\ (forall e,
        Prefiltering dictionary_words dictionary_tlds url0 = Throw e
        <-> e = TypeError
            /\ (match_leading_word (toLowerCase url0) = None
                \/ (includes (toLowerCase url0) "/" || includes (toLowerCase url0) "?"
                    || includes (toLowerCase url0) "www" = false
                    /\ match_words_after_dots (toLowerCase url0) = None))).
Proof.
  unfold Prefiltering.
  destruct (match_leading_word (toLowerCase url0)) as [fw|]; cbn [deref bind].
  2:{ split; [reflexivity|]. split; [discriminate|].
      intros e. split; [intros H; inversion H; auto | intros [-> _]; reflexivity]. }
  split; [discriminate|].
  destruct (includes (toLowerCase url0) "/" || includes (toLowerCase url0) "?"
            || includes (toLowerCase url0) "www") eqn:Emark.
  { split; [intros ? H _; inversion H; reflexivity|].
    intros e. split; [discriminate|]. intros [_ [H|[H _]]]; discriminate H. }
  split; [discriminate|].
  destruct (match_words_after_dots (toLowerCase url0)) as [words|] eqn:Ewords;
    cbn [deref bind].
  2:{ intros e. split; [intros H; inversion H; auto | intros [-> _]; reflexivity]. }
  intros e. split; [| intros [_ [H|[_ H]]]; discriminate H].
  intros H. exfalso.
  destruct (match_words_after_dots_nonempty _ _ Ewords) as (wd & rest & ->).
  destruct (1 <? length (wd :: rest))%nat; cbn [lookup list_lookup deref bind] in H.
  - destruct (_ || _) in H; [discriminate H|].
    destruct (tldIsWord _ _) in H; discriminate H.
  - destruct (_ || _) in H; [discriminate H|].
    destruct (tldIsWord _ _) in H; discriminate H.
Qed.

(** The choice among the entries [l], from the choice [tld0] made so far. *)
Lemma longest_tld_fold (endingOfUrl last : string) (l : list string) (tld0 : string) :
  let step := fun tld item =>
                if includes endingOfUrl item
                   && (String.length tld <? String.length item)%nat
                   && includes item last
                then item else tld in
  (fold_left step l tld0 = tld0
   \/ (fold_left step l tld0 ∈ l
       /\ includes endingOfUrl (fold_left step l tld0) = true
       /\ includes (fold_left step l tld0) last = true))
  /\ (String.length tld0 <= String.length (fold_left step l tld0))%nat
  /\ forall item, item ∈ l -> includes endingOfUrl item = true ->
                  includes item last = true ->
                  (String.length item <= String.length (fold_left step l tld0))%nat.
Proof.
  intros step. revert tld0.
  induction l as [|x l IH]; intros tld0; cbn [fold_left].
  - split; [left; reflexivity|]. split; [lia|].
    intros item Hin. apply not_elem_of_nil in Hin. contradiction.
  - destruct (IH (step tld0 x)) as (Hsel & Hlen & Hmax).
    assert (Hstep : (step tld0 x = tld0
                     /\ (includes endingOfUrl x = true -> includes x last = true ->
                         (String.length x <= String.length tld0)%nat))
                    \/ (step tld0 x = x /\ includes endingOfUrl x = true
                        /\ includes x last = true
                        /\ (String.length tld0 < String.length x)%nat)).
    { unfold step. destruct (includes endingOfUrl x); cbn [andb]; [| left; split; [reflexivity | discriminate]].
      destruct (String.length tld0 <? String.length x)%nat eqn:Elt; cbn [andb].
      - destruct (includes x last); [| left; split; [reflexivity | discriminate]].
        right. apply Nat.ltb_lt in Elt. auto.
      - left. apply Nat.ltb_ge in Elt. auto. }
    assert (Hge : (String.length tld0 <= String.length (step tld0 x))%nat).
    { destruct Hstep as [[Hs _]|(Hs & _ & _ & Hlt)]; rewrite Hs; lia. }
    split; [| split].
    + destruct Hsel as [Hsel|(Hin & H1 & H2)].
      * destruct Hstep as [[Hs _]|(Hs & H1 & H2 & _)].
        -- left. congruence.
        -- right. rewrite Hsel, Hs. split; [apply list_elem_of_here | auto].
      * right. split; [apply list_elem_of_further, Hin | auto].
    + lia.
    + intros item Hin H1 H2. apply elem_of_cons in Hin. destruct Hin as [->|Hin].
      * assert (Hx : (String.length x <= String.length (step tld0 x))%nat).
        { destruct Hstep as [[Hs Hle]|(Hs & _ & _ & Hlt)]; rewrite Hs.
          - exact (Hle H1 H2).
          - lia. }
        lia.
      * apply Hmax; assumption.
Qed.

(** X20: the tail chosen for a token with several words after dots is empty
    or an entry of the TLD dictionary that occurs in the ending and contains
    the last word, and no such entry is longer. *)
Theorem longest_tld_is_longest (endingOfUrl last : string) :
  (longest_tld dictionary_tlds endingOfUrl last = ""
   \/ (longest_tld dictionary_tlds endingOfUrl last ∈ dictionary_tlds
       /\ includes endingOfUrl (longest_tld dictionary_tlds endingOfUrl last) = true
       /\ includes (longest_tld dictionary_tlds endingOfUrl last) last = true))
  /\ forall item,
       item ∈ dictionary_tlds ->
       includes endingOfUrl item = true -> includes item last = true ->
       (String.length item <= String.length (longest_tld dictionary_tlds endingOfUrl last))%nat.
Proof.
  unfold longest_tld.
  destruct (longest_tld_fold endingOfUrl last dictionary_tlds "") as (Hsel & _ & Hmax).
  split; [exact Hsel | exact Hmax].
Qed.

(** X21: a token with two or more words after dots whose ending fits no
    entry of the TLD dictionary gets the empty tail, and it is a candidate
    exactly when the word dictionary holds the empty word. *)
Theorem empty_tail_is_a_candidate (url0 firstword : string) (words : list string) :
  match_leading_word (toLowerCase url0) = Some firstword ->
  includes (toLowerCase url0) "/" || includes (toLowerCase url0) "?"
  || includes (toLowerCase url0) "www" = false ->
  match_words_after_dots (toLowerCase url0) = Some words ->
  (1 < length words)%nat ->
  (forall item, item ∈ dictionary_tlds -> item <> "" ->
     includes (default "" (words !! (length words - 2)%nat) ++ "."
               ++ default "" (words !! (length words - 1)%nat)) item = true ->
     includes item (default "" (words !! (length words - 1)%nat)) = false) ->
  ("" ∈ dictionary_words ->
   Prefiltering dictionary_words dictionary_tlds url0
   = Return (true, "", firstword, Some words))
  /\ ("" ∉ dictionary_words ->
      Prefiltering dictionary_words dictionary_tlds url0
      = Return (false, "", firstword, Some words)).
Proof.
  intros Hfw Hmark Hwords Hlen Hnone. unfold Prefiltering.
  rewrite Hfw, Hmark, Hwords. cbn [deref bind].
  rewrite (proj2 (Nat.ltb_lt _ _) Hlen). cbn [bind].
  set (tld := longest_tld dictionary_tlds _ _).
  assert (Htld : tld = "").
  { destruct (String.eqb_spec tld "") as [He|He]; [exact He|]. exfalso.
    destruct (longest_tld_fold
                (default "" (words !! (length words - 2)%nat) ++ "."
                 ++ default "" (words !! (length words - 1)%nat))
                (default "" (words !! (length words - 1)%nat))
                dictionary_tlds "")
      as [[Hempty|(Hin & H1 & H2)] _]; [exact (He Hempty)|].
    fold (longest_tld dictionary_tlds
            (default "" (words !! (length words - 2)%nat) ++ "."
             ++ default "" (words !! (length words - 1)%nat))
            (default "" (words !! (length words - 1)%nat))) in Hin, H1, H2.
    fold tld in Hin, H1, H2. rewrite (Hnone _ Hin He H1) in H2. discriminate H2. }
  rewrite Htld. cbn [String.eqb orb includes String.prefix].
  split; [intros Hin | intros Hnin].
  - rewrite (proj2 (tldIsWord_spec dictionary_words "")); [reflexivity|].
    exists "". auto.
  - destruct (tldIsWord dictionary_words "") eqn:E; [| reflexivity].
    apply tldIsWord_spec in E. destruct E as (item & Hin & Heq).
    symmetry in Heq. apply (proj1 (toLowerCase_empty item)) in Heq.
    subst item. contradiction.
Qed.

End Tails.

Lemma for_loop_inv_at {St : Type} (P : nat -> St -> Prop) (body : nat -> St -> outcome St)
    (n lo : nat) (s s' : St) :
  (forall i x y, (lo <= i < lo + n)%nat -> P i x -> body i x = Return y -> P (S i) y) ->
  P lo s -> for_loop n lo body s = Return s' -> P (lo + n)%nat s'.
Proof.
  revert lo s. induction n as [|n IH]; intros lo s Hbody Hs H; simpl in H.
  - inversion H; subst. rewrite Nat.add_0_r. exact Hs.
  - destruct (body lo s) as [y| |] eqn:E; simpl in H; try discriminate.
    replace (lo + S n)%nat with (S lo + n)%nat by lia.
    apply (IH (S lo) y); [| |exact H].
    + intros i x z Hi. apply Hbody. lia.
    + apply (Hbody lo s y); [lia | exact Hs | exact E].
Qed.

Lemma for_loop_returns_each {St : Type} (body : nat -> St -> outcome St)
    (n lo : nat) (s s' : St) (k : nat) :
  for_loop n lo body s = Return s' -> (lo <= k < lo + n)%nat ->
  exists x y, body k x = Return y.
Proof.
  revert lo s. induction n as [|n IH]; intros lo s H Hk; [lia|]. simpl in H.
  destruct (body lo s) as [y| |] eqn:E; simpl in H; try discriminate.
  destruct (Nat.eq_dec k lo) as [->|Hne]; [eauto|].
  apply (IH (S lo) y H). lia.
Qed.

(** X22: when every match captured the word before the token, the flag
    [preposition] is 0 exactly when one of these words introduces an address,
    and 1 otherwise. *)
Theorem preposition_of_spec (matches : list regexp_match) :
  Forall (fun m => exists wd, mjoin (groups m !! 1%nat) = Some wd) matches ->
  preposition_of matches
  = Return (if existsb
                 (fun m => introduces_address
                             (toLowerCase (default "" (mjoin (groups m !! 1%nat)))))
                 matches
            then 0%nat else 1%nat).
Proof.
  induction 1 as [|m ms (wd & Hwd) _ IH]; [reflexivity|].
  cbn [preposition_of existsb]. rewrite Hwd. cbn [deref bind default from_option id].
  destruct (introduces_address (toLowerCase wd)); [reflexivity | exact IH].
Qed.

Lemma preposition_of_binary (matches : list regexp_match) (n : nat) :
  preposition_of matches = Return n -> (n <= 1)%nat.
Proof.
  induction matches as [|m ms IH]; cbn [preposition_of]; intros H.
  - inversion H; subst. lia.
  - destruct (mjoin (groups m !! 1%nat)); cbn [deref bind] in H; [| discriminate].
    destruct (introduces_address _); [inversion H; subst; lia | exact (IH H)].
Qed.

Section Features.
Variable dictionary_words : list string.
Variable dictionary_tlds : list string.
Variable regex : Type.
Variable RegExp : string -> string -> outcome regex.
Variable exec : regex -> string -> option regexp_match.
Variable matchAll : regex -> string -> list regexp_match.
Variable isNaN : string -> bool.
Variable send : string -> DNS.XMLHttpRequest.

Abbreviation calculateFeatures' :=
  (calculateFeatures dictionary_words regex RegExp exec matchAll isNaN send).
Abbreviation detection_pass' :=
  (detection_pass dictionary_words dictionary_tlds regex RegExp exec matchAll isNaN send).

Ltac bind_cases H :=
  repeat (cbn [bind] in H;
    match type of H with
    | Return _ = Return _ => fail 1
    | bind ?m _ = _ => let E := fresh "E" in destruct m eqn:E
    | (let '(_, _) := ?x in _) = _ => let E := fresh "E" in destruct x eqn:E
    | Throw _ = Return _ => discriminate H
    | OutOfFuel = Return _ => discriminate H
    end).

Lemma string_flag_binary firstword otherwords url_i :
  (string_flag dictionary_words isNaN firstword otherwords url_i <= 1)%nat.
Proof.
  unfold string_flag. cbv zeta.
  repeat match goal with
         | |- ((if ?c then _ else _) <= 1)%nat => destruct c
         end; lia.
Qed.

(** X23: for a token with one word after the dot, the flag [string] is 1 as
    soon as the first word or that word has two characters or more; neither
    the dictionary nor the hyphen is consulted. *)
Theorem string_flag_of_two_labels (firstword word url_i : string) :
  (2 <= String.length firstword)%nat \/ (2 <= String.length word)%nat ->
  string_flag dictionary_words isNaN firstword [word] url_i = 1%nat.
Proof.
  intros H. unfold string_flag. cbv zeta.
  assert (Hcount : short_words firstword [word] = 0%nat).
  { unfold short_words. destruct (String.length firstword <? 2)%nat eqn:E1; [| reflexivity].
    apply Nat.ltb_lt in E1. cbn [List.filter].
    destruct (String.length word <? 2)%nat eqn:E2; [| reflexivity].
    apply Nat.ltb_lt in E2. lia. }
  rewrite Hcount. reflexivity.
Qed.

(** What one call adds. *)
Lemma calculateFeatures_adds firstword otherwords i urls tld arr texts arr' :
  calculateFeatures' firstword otherwords i urls tld arr texts = Return arr' ->
  exists s, urls !! i = Some s /\
    ((lookup_succeeded (send s) /\
      exists e, arr' = (arr ++ [e])%list /\ url e = s /\
                binary_vector (feature_vector e))
     \/ (~ lookup_succeeded (send s) /\ arr' = arr)).
Proof.
  intros H. unfold calculateFeatures in H.
  destruct (texts !! i) as [t|]; cbn [deref bind] in H; [| discriminate].
  destruct (urls !! i) as [s|]; cbn [deref bind] in H; [| discriminate].
  exists s. split; [reflexivity|].
  bind_cases H.
  inversion H as [Harr]. clear H.
  unfold DNS.Query, DNS._callApi, lookup_succeeded.
  destruct (DNS.readyState (send s) =? DNS.DONE)%nat eqn:Eready; cbn [andb].
  2:{ right. apply Nat.eqb_neq in Eready. tauto. }
  destruct (DNS.status (send s) =? 200)%nat eqn:Estatus.
  2:{ right. apply Nat.eqb_neq in Estatus. tauto. }
  apply Nat.eqb_eq in Eready, Estatus. left. split; [auto|].
  eexists. split; [reflexivity|]. split; [reflexivity|].
  split; [reflexivity|]. unfold feature_vector.
  cbn [ns preposition string_ repetition beginning end_ middle net co gov it my no so
       you to zip map].
  assert (Hbin : forall v : nat, (v <= 1)%nat -> of_nat v = Fin 0 \/ of_nat v = Fin 1).
  { intros [|[|v]] Hv; [left | right | lia]; reflexivity. }
  assert (Hflag : forall name : string,
             ((if String.eqb tld name then 1 else 0) <= 1)%nat)
    by (intros name; destruct (String.eqb tld name); lia).
  match goal with
  | Hp : (if ?c then _ else _) = (_, _, _) |- _ =>
      destruct c; [| match type of Hp with
                     | (if ?c' then _ else _) = _ => destruct c' end];
      inversion Hp; subst
  end;
    repeat (apply List.Forall_cons;
            [apply Hbin;
             first [ apply Hflag
                   | apply string_flag_binary
                   | lia
                   | match goal with
                     | |- ((if ?c then _ else _) <= 1)%nat => destruct c; lia
                     end
                   | match goal with
                     | |- context [DNS.response ?x] =>
                         destruct (DNS.response x) as [[|? ?]|]; cbn; lia
                     end
                   | match goal with
                     | Hp : (if ?c then _ else _) = Return ?n |- (?n <= 1)%nat =>
                         destruct c;
                         [inversion Hp; lia | exact (preposition_of_binary _ _ Hp)]
                     end ] |]);
    apply List.Forall_nil.
Qed.

(** What one round of the loop over the tokens does. *)
Lemma detection_step (urls : list string) (texts : list TextofURL) (i : nat)
    (arr arr' : list URLElement) :
  (i < length urls)%nat ->
  (let* '(isPossibleTypo, tld, firstword, otherwords) :=
     Prefiltering dictionary_words dictionary_tlds (default "" (urls !! i)) in
   if isPossibleTypo : bool then
     let* words := deref otherwords in
     calculateFeatures' firstword words i urls tld arr texts
   else Return arr) = Return arr' ->
  exists s, urls !! i = Some s /\
    (arr' = arr
     \/ exists e, arr' = (arr ++ [e])%list /\ url e = s /\
                  binary_vector (feature_vector e) /\
                  accepted dictionary_words dictionary_tlds s /\
                  lookup_succeeded (send s)).
Proof.
  intros Hi H.
  destruct (lookup_lt_is_Some_2 urls i Hi) as [s Hs]. exists s. split; [exact Hs|].
  rewrite Hs in H. cbn [default from_option id] in H.
  destruct (Prefiltering _ _ s) as [[[[c t] f] o]| |] eqn:Epre; cbn [bind] in H;
    try discriminate.
  destruct c; [| inversion H; auto].
  destruct o as [ws|]; cbn [deref bind] in H; [| discriminate].
  apply calculateFeatures_adds in H. destruct H as (s' & Hs' & Hcase).
  rewrite Hs in Hs'. inversion Hs'; subst s'.
  destruct Hcase as [(Hok & e & -> & Hurl & Hbin)|(_ & ->)]; [| auto].
  right. exists e. split; [reflexivity|]. split; [exact Hurl|].
  split; [exact Hbin|]. split; [| exact Hok].
  exists t, f, (Some ws). exact Epre.
Qed.

(** X24: the vector built from every element that [calculateFeatures] adds,
    and from every element that a pass collects, has 17 entries, each 0 or
    1. *)
Theorem feature_vectors_are_binary :
  (forall firstword otherwords i urls tld arr texts arr',
      calculateFeatures' firstword otherwords i urls tld arr texts = Return arr' ->
      exists new, arr' = (arr ++ new)%list
                  /\ Forall (fun e => binary_vector (feature_vector e)) new)
  /\ (forall urls texts arr,
        detection_pass' urls texts = Return arr ->
        Forall (fun e => binary_vector (feature_vector e)) arr).
Proof.
  split.
  - intros firstword otherwords i urls tld arr texts arr' H.
    apply calculateFeatures_adds in H.
    destruct H as (s & _ & [(_ & e & -> & _ & Hbin)|(_ & ->)]).
    + exists [e]. split; [reflexivity|].
      apply List.Forall_cons; [exact Hbin | apply List.Forall_nil].
    + exists []. split; [rewrite app_nil_r; reflexivity | constructor].
  - intros urls texts arr H. unfold detection_pass in H.
    apply (for_loop_inv (Forall (fun e => binary_vector (feature_vector e)))) in H;
      [exact H | | constructor].
    intros i x y [_ Hi] Hx Hy. cbn beta in Hy. simpl in Hi.
    apply detection_step in Hy; [| exact Hi].
    destruct Hy as (s & _ & [->|(e & -> & _ & Hbin & _)]); [exact Hx|].
    apply Forall_app. split; [exact Hx|].
    apply List.Forall_cons; [exact Hbin | apply List.Forall_nil].
Qed.

(** X25: a pass hands over at most one element for each token, in the order
    of the tokens, and only for tokens that [Prefiltering] accepted and whose
    lookup was done with status 200. *)
Theorem detection_pass_hands_over_accepted_tokens urls texts arr :
  detection_pass' urls texts = Return arr ->
  map url arr `sublist_of` urls
  /\ Forall (fun e => accepted dictionary_words dictionary_tlds (url e)
                      /\ lookup_succeeded (send (url e))) arr.
Proof.
  intros H. unfold detection_pass in H.
  apply (for_loop_inv_at
           (fun i arr =>
              map url arr `sublist_of` take i urls
              /\ Forall (fun e => accepted dictionary_words dictionary_tlds (url e)
                                  /\ lookup_succeeded (send (url e)))
                        arr)) in H.
  - cbn [Nat.add] in H. rewrite firstn_all in H. exact H.
  - intros i x y [_ Hi] [Hsub Hall] Hy. cbn beta in Hy. simpl in Hi.
    apply detection_step in Hy; [| exact Hi].
    destruct Hy as (s & Hs & Hcase).
    rewrite (take_S_r _ _ _ Hs).
    destruct Hcase as [->|(e & -> & Hurl & _ & Hacc & Hok)].
    + split; [apply sublist_inserts_r, Hsub | exact Hall].
    + split.
      * rewrite map_app. cbn [map]. rewrite Hurl.
        apply sublist_app; [exact Hsub | reflexivity].
      * apply Forall_app. split; [exact Hall|].
        apply List.Forall_cons; [| apply List.Forall_nil].
        rewrite Hurl. split; assumption.
  - split; [reflexivity | constructor].
Qed.

Lemma throwing_token_aborts_the_pass urls texts (k : nat) (u : string) (e : error) :
  urls !! k = Some u ->
  Prefiltering dictionary_words dictionary_tlds u = Throw e ->
  forall arr, detection_pass' urls texts <> Return arr.
Proof.
  intros Hk Hthrow arr H. unfold detection_pass in H.
  apply (for_loop_returns_each _ _ _ _ _ k) in H.
  - destruct H as (x & y & Hxy). rewrite Hk in Hxy.
    cbn [default from_option id] in Hxy. rewrite Hthrow in Hxy. discriminate Hxy.
  - apply lookup_lt_Some in Hk. lia.
Qed.

End Features.

(** The collection, one token at a time. *)
Definition add_token (st : list string * list TextofURL) (tk : string * string)
  : list string * list TextofURL :=
  if negb (existsb (String.eqb tk.1) st.1)
  then ((st.1 ++ [tk.1])%list, (st.2 ++ [mkTextofURL tk.1 tk.2])%list)
  else st.

Definition tokens_of_block (textElement : TextElement) : list (string * string) :=
  omap (fun child =>
          if negb (String.eqb (cssText child) "")
          then Some (strip_scheme (child_innerText child), innerText textElement)
          else None)
       (children textElement).

Lemma collect_urls_tokens (textElements : list TextElement) :
  collect_urls textElements
  = fold_left add_token (flat_map tokens_of_block textElements) ([], []).
Proof.
  unfold collect_urls. generalize (@nil string, @nil TextofURL).
  induction textElements as [|el els IH]; intros st; [reflexivity|].
  cbn [fold_left flat_map]. rewrite fold_left_app, IH. f_equal.
  unfold tokens_of_block. generalize (children el). clear.
  intros chs. revert st. induction chs as [|ch chs IH]; intros st; [reflexivity|].
  cbn [fold_left]. rewrite IH.
  change (omap ?f (ch :: chs))
    with (match f ch with Some y => y :: omap f chs | None => omap f chs end).
  destruct st as [urls texts]. cbv beta iota.
  destruct (negb (String.eqb (cssText ch) "")); [| reflexivity].
  cbn [fold_left]. f_equal.
Qed.

Lemma existsb_eqb (u : string) (l : list string) :
  existsb (String.eqb u) l = true <-> u ∈ l.
Proof.
  rewrite existsb_exists, list_elem_of_In. split.
  - intros (x & Hx & E). apply String.eqb_eq in E. subst. exact Hx.
  - intros H. exists u. split; [exact H | apply String.eqb_refl].
Qed.

Lemma fold_add_token (tks : list (string * string)) (st : list string * list TextofURL) :
  NoDup st.1 -> map text_url st.2 = st.1 ->
  let r := fold_left add_token tks st in
  NoDup r.1 /\ map text_url r.2 = r.1
  /\ (forall u, u ∈ r.1 <-> u ∈ st.1 \/ u ∈ map fst tks)
  /\ (forall t, t ∈ r.2 -> t ∈ st.2 \/ (text_url t, text t) ∈ tks).
Proof.
  revert st. induction tks as [|tk tks IH]; intros st Hnd Hal; cbn [fold_left].
  - cbv zeta. split; [exact Hnd|]. split; [exact Hal|]. split.
    + intros u. cbn [map]. rewrite elem_of_nil. tauto.
    + auto.
  - assert (Hstep : NoDup (add_token st tk).1
                    /\ map text_url (add_token st tk).2 = (add_token st tk).1
                    /\ (forall u, u ∈ (add_token st tk).1 <-> u ∈ st.1 \/ u = tk.1)
                    /\ (forall t, t ∈ (add_token st tk).2 ->
                                  t ∈ st.2 \/ (text_url t, text t) = tk)).
    { unfold add_token. destruct (existsb (String.eqb tk.1) st.1) eqn:E; cbn [negb].
      - apply existsb_eqb in E. split; [exact Hnd|]. split; [exact Hal|]. split.
        + intros u. split; [auto|]. intros [H| ->]; assumption.
        + auto.
      - cbn [fst snd]. split; [| split; [| split]].
        + apply NoDup_app. split; [exact Hnd|]. split; [| apply NoDup_singleton].
          intros u Hu Hu'. apply list_elem_of_singleton in Hu'. subst u.
          apply existsb_eqb in Hu. congruence.
        + rewrite map_app, Hal. reflexivity.
        + intros u. rewrite elem_of_app, list_elem_of_singleton. tauto.
        + intros t Ht. apply elem_of_app in Ht. destruct Ht as [Ht|Ht]; [auto|].
          apply list_elem_of_singleton in Ht. subst t. right. destruct tk; reflexivity. }
    destruct Hstep as (Hnd' & Hal' & Hin' & Hor').
    destruct (IH (add_token st tk) Hnd' Hal') as (H1 & H2 & H3 & H4).
    cbv zeta. split; [exact H1|]. split; [exact H2|]. split.
    + intros u. rewrite H3, Hin'. cbn [map]. rewrite elem_of_cons. tauto.
    + intros t Ht. apply H4 in Ht. destruct Ht as [Ht|Ht].
      * apply Hor' in Ht. destruct Ht as [Ht|Ht]; [auto|].
        right. rewrite Ht. apply list_elem_of_here.
      * right. apply list_elem_of_further, Ht.
Qed.

Lemma elem_of_tokens (textElements : list TextElement) (u text_ : string) :
  (u, text_) ∈ flat_map tokens_of_block textElements <-> token_of textElements u text_.
Proof.
  unfold token_of. rewrite list_elem_of_In, in_flat_map. split.
  - intros (el & Hel & Hin). apply list_elem_of_In in Hin. unfold tokens_of_block in Hin.
    apply list_elem_of_omap in Hin. destruct Hin as (ch & Hch & Heq).
    destruct (String.eqb_spec (cssText ch) "") as [E|E]; cbn [negb] in Heq;
      [discriminate|].
    inversion Heq; subst. exists el, ch. apply list_elem_of_In in Hel.
    repeat split; auto.
  - intros (el & ch & Hel & Hch & Hst & -> & ->). exists el.
    split; [apply list_elem_of_In, Hel|]. apply list_elem_of_In.
    unfold tokens_of_block. apply list_elem_of_omap. exists ch. split; [exact Hch|].
    destruct (String.eqb_spec (cssText ch) "") as [E|E]; [contradiction | reflexivity].
Qed.

(** Every token of the blocks is collected. *)
Lemma collect_urls_holds_the_tokens (textElements : list TextElement) (u text_ : string) :
  token_of textElements u text_ -> u ∈ (collect_urls textElements).1.
Proof.
  intros Htk. rewrite collect_urls_tokens.
  destruct (fold_add_token (flat_map tokens_of_block textElements) ([], []))
    as (_ & _ & H3 & _); [apply NoDup_nil_2 | reflexivity |].
  cbv zeta in H3. apply H3. right.
  apply list_elem_of_In, in_map_iff.
  exists (u, text_). split; [reflexivity|]. apply list_elem_of_In, elem_of_tokens, Htk.
Qed.

(** X26: the tokens collected from the styled children.  No token is kept
    twice, each token has its text at the same index, the tokens are exactly
    the texts of the styled children without their scheme, and each text is
    that of a block with such a child. *)
Theorem collect_urls_keeps_the_arrays_aligned (textElements : list TextElement) :
  NoDup (collect_urls textElements).1
  /\ map text_url (collect_urls textElements).2 = (collect_urls textElements).1
  /\ (forall u, u ∈ (collect_urls textElements).1
                <-> exists text_, token_of textElements u text_)
  /\ (forall t, t ∈ (collect_urls textElements).2 ->
                token_of textElements (text_url t) (text t)).
Proof.
  rewrite collect_urls_tokens.
  destruct (fold_add_token (flat_map tokens_of_block textElements) ([], []))
    as (H1 & H2 & H3 & H4); [apply NoDup_nil_2 | reflexivity |].
  cbv zeta in *. split; [exact H1|]. split; [exact H2|]. split.
  - intros u. rewrite H3. cbn [fst]. rewrite elem_of_nil. split.
    + intros [[]|Hu]. apply list_elem_of_In, in_map_iff in Hu.
      destruct Hu as ([u' tx] & Heq & Hin). cbn in Heq. subst u'.
      exists tx. apply elem_of_tokens, list_elem_of_In, Hin.
    + intros (tx & Htk). right. apply list_elem_of_In, in_map_iff.
      exists (u, tx). split; [reflexivity|]. apply list_elem_of_In, elem_of_tokens, Htk.
  - intros t Ht. apply H4 in Ht. cbn [snd] in Ht. rewrite elem_of_nil in Ht.
    destruct Ht as [[]|Ht]. apply elem_of_tokens, Ht.
Qed.

Section Click.
Variable dictionary_words : list string.
Variable dictionary_tlds : list string.
Variable regex : Type.
Variable RegExp : string -> string -> outcome regex.
Variable exec : regex -> string -> option regexp_match.
Variable matchAll : regex -> string -> list regexp_match.
Variable isNaN : string -> bool.
Variable send : string -> DNS.XMLHttpRequest.
Variable Math_exp : num -> num.
Variable json : JSON.

Abbreviation TweetButtonClicked' :=
  (TweetButtonClicked dictionary_words dictionary_tlds regex RegExp exec matchAll isNaN
                      send Math_exp json).

(** X27: a click on a tweet without styled child posts the tweet, whatever
    the dictionaries and the model hold. *)
Theorem click_without_styled_text_posts (textElements : list TextElement) :
  Forall (fun textElement =>
            Forall (fun child => cssText child = "") (children textElement))
         textElements ->
  TweetButtonClicked' false textElements = Return (Some Posted).
Proof.
  intros H. unfold TweetButtonClicked. cbn [negb].
  assert (Hnone : collect_urls textElements = ([], [])).
  { rewrite collect_urls_tokens.
    replace (flat_map tokens_of_block textElements) with (@nil (string * string));
      [reflexivity|].
    symmetry. induction H as [|el els Hel _ IH]; [reflexivity|].
    cbn [flat_map]. rewrite IH, app_nil_r. unfold tokens_of_block.
    induction Hel as [|ch chs Hch _ IHch]; [reflexivity|].
    change (omap ?f (ch :: chs))
      with (match f ch with Some y => y :: omap f chs | None => omap f chs end).
    cbv beta. rewrite Hch. exact IHch. }
  rewrite Hnone. reflexivity.
Qed.

(** X28: when [Prefiltering] throws on one of the collected tokens, the
    handler does not complete: no dialog is shown and the tweet is not
    posted. *)
Theorem throwing_token_swallows_the_click (textElements : list TextElement)
    (u text_ : string) (e : error) :
  token_of textElements u text_ ->
  Prefiltering dictionary_words dictionary_tlds u = Throw e ->
  forall r, TweetButtonClicked' false textElements <> Return r.
Proof.
  intros Htk Hthrow r H. unfold TweetButtonClicked in H. cbn [negb] in H.
  pose proof (collect_urls_holds_the_tokens textElements u text_ Htk) as Hu.
  destruct (collect_urls textElements) as [urls texts]. cbn [fst] in Hu.
  apply list_elem_of_lookup in Hu. destruct Hu as [k Hk].
  destruct (detection_pass _ _ _ _ _ _ _ _ urls texts) as [arr| |] eqn:Epass;
    cbn [bind] in H; try discriminate H.
  exact (throwing_token_aborts_the_pass _ _ _ _ _ _ _ _ _ _ _ _ _ Hk Hthrow _ Epass).
Qed.

End Click.

(** Only tokens of the blocks are collected. *)
Lemma collect_urls_only_tokens (textElements : list TextElement) (u : string) :
  u ∈ (collect_urls textElements).1 -> exists text_, token_of textElements u text_.
Proof.
  rewrite collect_urls_tokens.
  destruct (fold_add_token (flat_map tokens_of_block textElements) ([], []))
    as (_ & _ & H3 & _); [apply NoDup_nil_2 | reflexivity |].
  cbv zeta in H3. intros Hu. apply H3 in Hu. cbn [fst] in Hu.
  destruct Hu as [Hu|Hu]; [apply elem_of_nil in Hu; contradiction|].
  apply list_elem_of_In, in_map_iff in Hu.
  destruct Hu as ([u' tx] & Heq & Hin). cbn in Heq. subst u'.
  exists tx. apply elem_of_tokens, list_elem_of_In, Hin.
Qed.

Section Warning.
Variable dictionary_words : list string.
Variable dictionary_tlds : list string.
Variable regex : Type.
Variable RegExp : string -> string -> outcome regex.
Variable exec : regex -> string -> option regexp_match.
Variable matchAll : regex -> string -> list regexp_match.
Variable isNaN : string -> bool.
Variable send : string -> DNS.XMLHttpRequest.
Variable Math_exp : num -> num.
Variable json : JSON.

(** The elements of a pass come from its tokens. *)
Lemma detection_pass_elements (urls : list string) (texts : list TextofURL)
    (arr : list URLElement) :
  detection_pass dictionary_words dictionary_tlds regex RegExp exec matchAll isNaN send
                 urls texts = Return arr ->
  Forall (fun e => url e ∈ urls
                   /\ accepted dictionary_words dictionary_tlds (url e)
                   /\ lookup_succeeded (send (url e))) arr.
Proof.
  intros H. unfold detection_pass in H.
  apply (for_loop_inv
           (Forall (fun e => url e ∈ urls
                             /\ accepted dictionary_words dictionary_tlds (url e)
                             /\ lookup_succeeded (send (url e))))) in H;
    [exact H | | constructor].
  intros i x y [_ Hi] Hx Hy. cbn beta in Hy. simpl in Hi.
  apply detection_step in Hy; [| exact Hi].
  destruct Hy as (s & Hs & [->|(e & -> & Hurl & _ & Hacc & Hok)]); [exact Hx|].
  apply Forall_app. split; [exact Hx|].
  apply List.Forall_cons; [| apply List.Forall_nil].
  rewrite Hurl. split; [eapply list_elem_of_lookup_2, Hs | split; assumption].
Qed.

(** X30: every address that a warning names is the text, without its
    scheme, of a styled child, which [Prefiltering] accepted, whose lookup was
    done with status 200, and whose features the model labels 1; and a
    warning names at least one address. *)
Theorem a_warning_names_labelled_tokens (textElements : list TextElement)
    (innerHTML : string) :
  TweetButtonClicked dictionary_words dictionary_tlds regex RegExp exec matchAll isNaN
                     send Math_exp json false textElements
  = Return (Some (Warning innerHTML)) ->
  exists typo_arr,
    typo_arr <> []
    /\ innerHTML = "WARNING! <br><br> You are about to post following link(s): "
                   ++ alertText typo_arr
    /\ Forall (fun e =>
                 (exists text_, token_of textElements (url e) text_)
                 /\ accepted dictionary_words dictionary_tlds (url e)
                 /\ lookup_succeeded (send (url e))
                 /\ predictOne (snd (fromJSON Math_exp new_SVM json)) (feature_vector e)
                    = Return (Fin 1))
              typo_arr.
Proof.
  intros H. unfold TweetButtonClicked in H. cbn [negb] in H.
  pose proof (collect_urls_only_tokens textElements) as Htokens.
  destruct (collect_urls textElements) as [urls texts]. cbn [fst] in Htokens.
  destruct (detection_pass _ _ _ _ _ _ _ _ urls texts) as [arr| |] eqn:Epass;
    cbn [bind] in H; try discriminate H.
  apply detection_pass_elements in Epass.
  destruct (predictTypos Math_exp json arr) as [typo_arr| |] eqn:Etypos;
    cbn [bind] in H; try discriminate H.
  exists typo_arr. unfold show_dialog in H.
  destruct typo_arr as [|e0 rest] eqn:Earr; [discriminate H|]. rewrite <- Earr in *.
  split; [rewrite Earr; discriminate|].
  split.
  { rewrite Earr in H. cbn [length Nat.eqb negb] in H. inversion H. rewrite Earr.
    reflexivity. }
  clear H Earr e0 rest.
  unfold predictTypos in Etypos. rewrite predict_mapM, mapM_map in Etypos.
  destruct (mapM _ arr) as [ys| |] eqn:E; cbn [bind] in Etypos; try discriminate.
  inversion Etypos as [Hfilter]. clear Etypos.
  rewrite (mapM_filter _ (fun p => strict_eq p (Fin 1)) _ _ E).
  apply Forall_forall. intros e He.
  apply list_elem_of_In, filter_In in He. destruct He as [Hin Hlabel].
  apply list_elem_of_In in Hin.
  rewrite Forall_forall in Epass. destruct (Epass e Hin) as (Hu & Hacc & Hok).
  split; [apply Htokens, Hu|]. split; [exact Hacc|]. split; [exact Hok|].
  unfold predictOne in *.
  destruct (marginOne _ (feature_vector e)) as [f| |]; cbn [bind] in *;
    try discriminate Hlabel.
  destruct (gt (ToNumber f) (Fin 0)); [reflexivity | discriminate Hlabel].
Qed.

End Warning.

(** ** The model on examples *)

Local Close Scope string_scope.
Local Open Scope Q_scope.

(** What a run of [train] returned, read from the equation [E] of the run:
    [field] of the machine. *)
Ltac field_of_run E field :=
  let K := fresh "K" in
  pose proof (f_equal (fun r => match r with
                                | Return (_, m) => Some (field m)
                                | _ => None
                                end) E) as K;
  vm_compute in K; injection K as K; symmetry; exact K.

Ltac run_returns E := vm_compute in E; discriminate E.


Definition rbf_options (sigma : option num) : Options :=
  mkOptions None None None None None (Some (KernelName "rbf")) sigma false.

Definition custom_options : Options :=
  mkOptions None None None None None (Some (KernelFunction linearKernel)) None false.



(** C5 as the specification states it fails on a machine trained with a
    kernel of the caller: [toJSON] returns, and what it returns is the empty
    object. *)
Lemma toJSON_custom_kernel_returns :
  exists stats m,
    train Host.Math_exp Host.Math_random 100 new_SVM two_points two_labels
          custom_options
    = Return (stats, m) /\
    kernelType m = Some "custom"%string /\
    snd (toJSON m) = Return empty_JSON /\
    (forall e, snd (toJSON m) <> Throw e).
Proof.
  destruct (train Host.Math_exp Host.Math_random 100 new_SVM two_points two_labels
                  custom_options) as [[stats m]| |] eqn:E;
    [| run_returns E | run_returns E].
  assert (Hkt : kernelType m = Some "custom"%string)
    by field_of_run E kernelType.
  exists stats, m. split; [reflexivity|]. split; [exact Hkt|].
  unfold toJSON. rewrite Hkt. split; [reflexivity | discriminate].
Qed.

Lemma toJSON_custom_kernel_trained :
  exists stats m,
    train Host.Math_exp Host.Math_random 100 new_SVM two_points two_labels
          custom_options
    = Return (stats, m) /\
    kernelType m = Some "custom"%string /\
    toJSON m
    = (["Can't save this SVM because it's using custom, unsupported kernel..."%string],
       Return empty_JSON).
Proof.
  destruct (train Host.Math_exp Host.Math_random 100 new_SVM two_points two_labels
                  custom_options) as [[stats m]| |] eqn:E;
    [| run_returns E | run_returns E].
  assert (Hkt : kernelType m = Some "custom"%string)
    by field_of_run E kernelType.
  exists stats, m. split; [reflexivity|]. split; [exact Hkt|].
  exact (toJSON_custom_kernel m Hkt).
Defined.

(** C8 as the specification states it fails on this run: with
    [rbfsigma = 0] training returns, and the machine holds the width 0.5. *)
Lemma rbfsigma_zero_is_replaced :
  exists stats m,
    train Host.Math_exp Host.Math_random 100 new_SVM two_points two_labels
          (rbf_options (Some (Fin 0)))
    = Return (stats, m) /\
    kernelType m = Some "rbf"%string /\
    rbfSigma m = Some (Fin (1 # 2)).
Proof.
  destruct (train Host.Math_exp Host.Math_random 100 new_SVM two_points two_labels
                  (rbf_options (Some (Fin 0)))) as [[stats m]| |] eqn:E;
    [| run_returns E | run_returns E].
  exists stats, m. split; [reflexivity|].
  split; [field_of_run E kernelType | field_of_run E rbfSigma].
Qed.

Lemma train_rbf_sigma_negative :
  (-1 <= 0) /\
  exists stats m,
    train Host.Math_exp Host.Math_random 100 new_SVM two_points two_labels
          (rbf_options (Some (Fin (-1))))
    = Return (stats, m) /\
    kernelType m = Some "rbf"%string /\
    rbfSigma m = Some (if Qeq_bool (-1) 0 then Fin (1 # 2) else Fin (-1)) /\
    kernel m = Some (makeRbfKernel Host.Math_exp (rbfSigma m)).
Proof.
  split; [discriminate|].
  destruct (train Host.Math_exp Host.Math_random 100 new_SVM two_points two_labels
                  (rbf_options (Some (Fin (-1))))) as [[stats m]| |] eqn:E;
    [| run_returns E | run_returns E].
  exists stats, m. split; [reflexivity|].
  exact (proj2 (train_rbf_sigma Host.Math_exp Host.Math_random 100 two_points
                  two_labels (rbf_options (Some (Fin (-1)))) (-1) eq_refl eq_refl
                  ltac:(discriminate))
               stats m E).
Defined.

Lemma fromJSON_unrecognized_kernel_sample :
  let json := mkJSON None None None (Some "poly"%string) None None None None None in
  fst (fromJSON Host.Math_exp new_SVM json)
  = ["ERROR! unrecognized kernel type.poly"%string]
  /\ kernel (snd (fromJSON Host.Math_exp new_SVM json)) = None
  /\ usew_ (snd (fromJSON Host.Math_exp new_SVM json)) = false
  /\ w (snd (fromJSON Host.Math_exp new_SVM json)) = None.
Proof.
  exact (fromJSON_unrecognized_kernel Host.Math_exp new_SVM
           (mkJSON None None None (Some "poly"%string) None None None None None)
           ltac:(discriminate) ltac:(discriminate)).
Defined.

(** A linear machine as it is stored: one weight, no bias. *)
Definition a_linear_json : JSON :=
  mkJSON (Some 2%nat) (Some 1%nat) (Some (Fin 0)) (Some "linear"%string)
         (Some [Fin 1]) None None None None.

Lemma predict_in_order_sample :
  exists ys,
    predict (snd (fromJSON Host.Math_exp new_SVM a_linear_json))
            [[Fin 3]; [Fin (-2)]; [Fin 0]]
    = Return ys
    /\ ys = [Fin 1; Fin (-1); Fin (-1)]
    /\ length ys = 3%nat.
Proof.
  eexists. split; [vm_compute; reflexivity|]. split; [reflexivity|].
  exact (proj1 (predict_in_order
                  (snd (fromJSON Host.Math_exp new_SVM a_linear_json))
                  [[Fin 3]; [Fin (-2)]; [Fin 0]] [Fin 1; Fin (-1); Fin (-1)]
                  ltac:(vm_compute; reflexivity))).
Defined.

Lemma usew_after_train_two_points :
  exists stats m,
    train Host.Math_exp Host.Math_random 100 new_SVM two_points two_labels no_options
    = Return (stats, m)
    /\ usew_ m = true
    /\ (usew_ m = true
        <-> kernelType m = Some "linear"%string
            /\ exists d, D m = Some d /\ (0 < d)%nat).
Proof.
  destruct (train Host.Math_exp Host.Math_random 100 new_SVM two_points two_labels
                  no_options) as [[stats m]| |] eqn:E;
    [| run_returns E | run_returns E].
  exists stats, m. split; [reflexivity|].
  split; [field_of_run E usew_|].
  exact (usew_after_train Host.Math_exp Host.Math_random 100 two_points two_labels
           no_options stats m E).
Defined.


Local Close Scope Q_scope.
Local Open Scope string_scope.

(** Small dictionaries. *)
Definition some_words : list string := ["You"; "it"; "to"; "hello"; "a"].
Definition some_tlds : list string := ["com"; "co.uk"; "uk"; "you"; "it"; "co"].

(** A message, and the token found in it. *)
Definition a_message : list TextofURL :=
  [mkTextofURL "you.you" "Good for you.you are not blind"].

Lemma Prefiltering_candidate_rule_sample :
  ((forall candidate tld firstword otherwords,
       Prefiltering some_words some_tlds "foo.bar.it"
       = Return (candidate, tld, firstword, otherwords) ->
       toLowerCase tld = tld /\
       (candidate = true
        <-> tld <> "com" /\ tld <> "org" /\ includes tld "." = false /\
            exists item, item ∈ some_words /\ toLowerCase item = toLowerCase tld))
   /\ (returns (Prefiltering some_words some_tlds "foo.bar.it")
       <-> match_leading_word "foo.bar.it" <> None
           /\ match_words_after_dots "foo.bar.it" <> None))
  /\ Prefiltering some_words some_tlds "foo.bar.it"
     = Return (true, "it", "foo", Some ["bar"; "it"])
  /\ Prefiltering some_words some_tlds "you.you"
     = Return (true, "you", "you", Some ["you"]).
Proof.
  destruct (Prefiltering_candidate_rule some_words some_tlds) as (Hrule & Hyou & _).
  split; [| split].
  - exact (Hrule "foo.bar.it" eq_refl eq_refl eq_refl eq_refl).
  - reflexivity.
  - apply Hyou. exists "You". split; [apply list_elem_of_here | reflexivity].
Defined.

Lemma calculateFeatures_flags_sample :
  exists arr',
    calculateFeatures some_words Host.regex Host.RegExp Host.exec Host.matchAll
      Host.isNaN (fun _ => Host.answered 200 []) "you" ["you"] 0 ["you.you"] "you"
      [] a_message
    = Return arr' /\
    exists new, arr' = ([] ++ new)%list
                /\ Forall (fun e => one_position e /\ at_most_one_tld e) new.
Proof.
  eexists. split; [vm_compute; reflexivity|].
  apply (proj1 (calculateFeatures_flags some_words some_tlds Host.regex Host.RegExp
                  Host.exec Host.matchAll Host.isNaN
                  (fun _ => Host.answered 200 []))
           "you" ["you"] 0 ["you.you"] "you" [] a_message).
  vm_compute. reflexivity.
Defined.

(** C7 as the specification states it fails on this pass: the token is a
    candidate and the lookup ends with status 500; no element reaches the
    Predictor, where the same pass with status 200 hands over one element. *)
Lemma failed_lookup_drops_the_candidate :
  Prefiltering some_words some_tlds "you.you"
  = Return (true, "you", "you", Some ["you"])
  /\ detection_pass some_words some_tlds Host.regex Host.RegExp Host.exec
       Host.matchAll Host.isNaN (fun _ => Host.answered 500 [])
       ["you.you"] a_message
     = Return []
  /\ (fmap (map (fun e => (url e, ns e))))
       (match
           detection_pass some_words some_tlds Host.regex Host.RegExp Host.exec
             Host.matchAll Host.isNaN (fun _ => Host.answered 200 [])
             ["you.you"] a_message
         with
         | Return arr => Some arr
         | _ => None
         end)
     = Some [("you.you", 1%nat)].
Proof. repeat split; vm_compute; reflexivity. Qed.

Lemma lookup_decides_submission_sample :
  (exists arr',
      calculateFeatures some_words Host.regex Host.RegExp Host.exec Host.matchAll
        Host.isNaN (fun _ => Host.answered 500 []) "you" ["you"] 0 ["you.you"] "you"
        [] a_message
      = Return arr' /\ arr' = [])
  /\ (exists arr',
        calculateFeatures some_words Host.regex Host.RegExp Host.exec Host.matchAll
          Host.isNaN (fun _ => Host.answered 200 []) "you" ["you"] 0 ["you.you"]
          "you" [] a_message
        = Return arr' /\
        exists e, arr' = ([] ++ [e])%list /\ url e = "you.you" /\ ns e = 1%nat).
Proof.
  split.
  - eexists. split; [vm_compute; reflexivity|].
    apply (lookup_decides_submission some_words Host.regex Host.RegExp Host.exec
             Host.matchAll Host.isNaN (fun _ => Host.answered 500 [])
             "you" ["you"] 0 ["you.you"] "you" [] a_message _ "you.you" eq_refl).
    vm_compute. reflexivity.
  - eexists. split; [vm_compute; reflexivity|].
    apply (lookup_decides_submission some_words Host.regex Host.RegExp Host.exec
             Host.matchAll Host.isNaN (fun _ => Host.answered 200 [])
             "you" ["you"] 0 ["you.you"] "you" [] a_message _ "you.you" eq_refl).
    vm_compute. reflexivity.
Defined.

(** C10 as the specification states it fails here: the first word holds a
    hyphen, the short-segment test holds, and the flag is 1.  So it is on
    the token [a-b.you] in a pass, whose first dot-separated segment holds a
    hyphen. *)
Lemma hyphen_does_not_override_short_words :
  includes "a-b" "-" = true
  /\ (Z.of_nat (short_words "a-b" ["x"]) = Z.of_nat (length ["x"]) - 1)%Z
  /\ string_flag some_words Host.isNaN "a-b" ["x"] "a-b.x" = 1%nat
  /\ (fmap (map (fun e => (url e, string_ e))))
       (match
           detection_pass some_words some_tlds Host.regex Host.RegExp Host.exec
             Host.matchAll Host.isNaN (fun _ => Host.answered 200 [])
             ["a-b.you"] [mkTextofURL "a-b.you" "see a-b.you"]
         with
         | Return arr => Some arr
         | _ => None
         end)
     = Some [("a-b.you", 1%nat)].
Proof. repeat split; vm_compute; reflexivity. Qed.

Lemma string_flag_short_words_sample :
  string_flag some_words Host.isNaN "you" ["you"] "you.you" = 1%nat
  /\ string_flag some_words Host.isNaN "a-b" ["x"; "yy"; "zz"] "a-b.x.yy.zz" = 0%nat.
Proof.
  split.
  - apply (proj1 (string_flag_short_words some_words Host.isNaN
                    "you" ["you"] "you.you")).
    reflexivity.
  - apply (proj2 (string_flag_short_words some_words Host.isNaN
                    "a-b" ["x"; "yy"; "zz"] "a-b.x.yy.zz")).
    + discriminate.
    + reflexivity.
Defined.

(** *** Further examples *)

Local Close Scope string_scope.
Local Open Scope Q_scope.





(** Twenty iterations at most. *)
Definition few_iterations : Options :=
  mkOptions None None None (Some (Fin 20)) None None None false.

Lemma Host_draws_are_fair (rc i : nat) :
  (i < length two_points)%nat ->
  exists k, (k < 2)%nat /\
            randi 0 (Z.of_nat (length two_points)) (Host.Math_random (rc + k))
            <> Z.of_nat i.
Proof.
  intros Hi. cbn [length two_points] in *.
  assert (Hdraws : forall n,
             randi 0 (Z.of_nat 2) (Host.Math_random n)
             = if Nat.even n then 0%Z else 1%Z).
  { intros n. unfold Host.Math_random. destruct (Nat.even n); reflexivity. }
  destruct (Nat.even rc) eqn:E, i as [|[|i]]; try lia.
  - exists 1%nat. split; [lia|].
    rewrite Hdraws, Nat.add_1_r, Nat.even_succ, <- Nat.negb_even, E. discriminate.
  - exists 0%nat. split; [lia|].
    rewrite Hdraws, Nat.add_0_r, E. discriminate.
  - exists 0%nat. split; [lia|].
    rewrite Hdraws, Nat.add_0_r, E. discriminate.
  - exists 1%nat. split; [lia|].
    rewrite Hdraws, Nat.add_1_r, Nat.even_succ, <- Nat.negb_even, E. discriminate.
Qed.

Lemma train_returns_on_fair_draws_two_points :
  returns (train Host.Math_exp Host.Math_random 30 new_SVM two_points two_labels
                 few_iterations).
Proof.
  apply (train_returns_on_fair_draws Host.Math_exp Host.Math_random 2 20 30 two_points
           two_labels few_iterations).
  - discriminate.
  - reflexivity.
  - exact Host_draws_are_fair.
  - lia.
Defined.

Lemma train_iterations_two_points :
  exists stats m,
    train Host.Math_exp Host.Math_random 100 new_SVM two_points two_labels no_options
    = Return (stats, m)
    /\ (Nat.min 10 (Z.to_nat 10000) <= iters stats <= Z.to_nat 10000)%nat.
Proof.
  destruct (train Host.Math_exp Host.Math_random 100 new_SVM two_points two_labels
                  no_options) as [[stats m]| |] eqn:E;
    [| run_returns E | run_returns E].
  exists stats, m. split; [reflexivity|].
  apply (train_iterations Host.Math_exp Host.Math_random 100 new_SVM two_points
           two_labels no_options (Z.to_nat 10000) 10 stats m).
  - vm_compute. reflexivity.
  - reflexivity.
  - exact E.
Defined.

Lemma trained_machine_labels_any_vector_two_points :
  exists stats m,
    train Host.Math_exp Host.Math_random 100 new_SVM two_points two_labels no_options
    = Return (stats, m)
    /\ (predictOne m [Fin 3; Fin 4] = Return (Fin 1)
        \/ predictOne m [Fin 3; Fin 4] = Return (Fin (-1))).
Proof.
  destruct (train Host.Math_exp Host.Math_random 100 new_SVM two_points two_labels
                  no_options) as [[stats m]| |] eqn:E;
    [| run_returns E | run_returns E].
  exists stats, m. split; [reflexivity|].
  exact (trained_machine_labels_any_vector Host.Math_exp Host.Math_random 100 two_points
           two_labels no_options stats m [Fin 3; Fin 4] E).
Defined.

Lemma train_keeps_the_support_vectors_rbf :
  exists stats m,
    train Host.Math_exp Host.Math_random 100 new_SVM two_points two_labels
          (rbf_options None)
    = Return (stats, m)
    /\ kernelType m <> Some "linear"%string
    /\ exists sv lb al,
        data m = Some sv /\ labels m = Some lb /\ alpha m = Some al /\
        N m = Some (length sv) /\ length lb = length sv /\ length al = length sv /\
        Forall (fun a => gt a (alphatol (read_settings (rbf_options None))) = true) al /\
        Forall (fun row => row ∈ two_points) sv.
Proof.
  destruct (train Host.Math_exp Host.Math_random 100 new_SVM two_points two_labels
                  (rbf_options None)) as [[stats m]| |] eqn:E;
    [| run_returns E | run_returns E].
  assert (Hkt : kernelType m = Some "rbf"%string)
    by field_of_run E kernelType.
  assert (Hnot : kernelType m <> Some "linear"%string)
    by (rewrite Hkt; discriminate).
  exists stats, m. split; [reflexivity|]. split; [exact Hnot|].
  exact (train_keeps_the_support_vectors Host.Math_exp Host.Math_random 100 two_points
           two_labels (rbf_options None) stats m E Hnot).
Defined.

Lemma getWeights_after_linear_training_two_points :
  exists stats m,
    train Host.Math_exp Host.Math_random 100 new_SVM two_points two_labels no_options
    = Return (stats, m)
    /\ kernelType m = Some "linear"%string
    /\ exists weight,
        w m = Some weight /\ getWeights m = Return (map Some weight, b m).
Proof.
  destruct (train Host.Math_exp Host.Math_random 100 new_SVM two_points two_labels
                  no_options) as [[stats m]| |] eqn:E;
    [| run_returns E | run_returns E].
  assert (Hkt : kernelType m = Some "linear"%string)
    by field_of_run E kernelType.
  exists stats, m. split; [reflexivity|]. split; [exact Hkt|].
  exact (getWeights_after_linear_training Host.Math_exp Host.Math_random 100 two_points
           two_labels no_options stats m E Hkt).
Defined.

Lemma short_vector_is_labelled_negative_sample :
  marginOne (snd (fromJSON Host.Math_exp new_SVM a_linear_json)) [] = Return (Some NaN)
  /\ predictOne (snd (fromJSON Host.Math_exp new_SVM a_linear_json)) []
     = Return (Fin (-1)).
Proof.
  apply (short_vector_is_labelled_negative
           (snd (fromJSON Host.Math_exp new_SVM a_linear_json)) 1 [Fin 1] []);
    try reflexivity.
  left. cbn. lia.
Defined.

Lemma custom_machine_is_lost_in_the_round_trip_trained :
  exists stats m,
    train Host.Math_exp Host.Math_random 100 new_SVM two_points two_labels
          custom_options
    = Return (stats, m)
    /\ kernelType m = Some "custom"%string
    /\ exists json,
        snd (toJSON m) = Return json
        /\ fst (fromJSON Host.Math_exp new_SVM json)
           = ["ERROR! unrecognized kernel type.undefined"%string]
        /\ (forall x, predictOne (snd (fromJSON Host.Math_exp new_SVM json)) x
                      = Return (Fin (-1)))
        /\ (forall xs, predict (snd (fromJSON Host.Math_exp new_SVM json)) xs
                       = Return (map (fun _ => Fin (-1)) xs)).
Proof.
  destruct (train Host.Math_exp Host.Math_random 100 new_SVM two_points two_labels
                  custom_options) as [[stats m]| |] eqn:E;
    [| run_returns E | run_returns E].
  assert (Hkt : kernelType m = Some "custom"%string)
    by field_of_run E kernelType.
  exists stats, m. split; [reflexivity|]. split; [exact Hkt|].
  exact (custom_machine_is_lost_in_the_round_trip Host.Math_exp m Hkt).
Defined.

(** Two elements, one without name server and one with. *)
Definition an_element (u : string) (ns_flag : nat) : URLElement :=
  mkURLElement u 0 1 0 0 1 ns_flag 0 0 0 0 0 0 0 1 0 0 1.

Lemma predictTypos_keeps_the_elements_labelled_one_sample :
  predictTypos Host.Math_exp a_linear_json
               [an_element "you.you" 1; an_element "for.you" 0]
  = Return [an_element "you.you" 1]
  /\ [an_element "you.you" 1]
     = List.filter
         (fun item =>
            match predictOne (snd (fromJSON Host.Math_exp new_SVM a_linear_json))
                             (feature_vector item) with
            | Return label => strict_eq label (Fin 1)
            | _ => false
            end)
         [an_element "you.you" 1; an_element "for.you" 0].
Proof.
  split; [vm_compute; reflexivity|].
  apply (predictTypos_keeps_the_elements_labelled_one Host.Math_exp a_linear_json).
  vm_compute. reflexivity.
Defined.

(** A linear machine stored with eighteen features. *)
Definition an_oversized_json : JSON :=
  mkJSON (Some 2%nat) (Some 18%nat) (Some (Fin 0)) (Some "linear"%string)
         (Some (replicate 18 (Fin 1))) None None None None.

Lemma oversized_model_never_warns_sample :
  exists typo_arr,
    predictTypos Host.Math_exp an_oversized_json
                 [an_element "you.you" 1; an_element "for.you" 0]
    = Return typo_arr
    /\ show_dialog typo_arr = Posted.
Proof.
  apply (oversized_model_never_warns Host.Math_exp an_oversized_json 18
           (replicate 18 (Fin 1))); try reflexivity.
  lia.
Defined.

Local Close Scope Q_scope.
Local Open Scope string_scope.

(** A word list of two lines, each ended by a line feed. *)
Definition a_word_list : string :=
  "you" ++ String "010" ("it" ++ String "010" "").

Lemma empty_tail_is_a_candidate_sample :
  createWordDict a_word_list = ["you"; "it"; ""]
  /\ Prefiltering (createWordDict a_word_list) some_tlds "a.b.c"
     = Return (true, "", "a", Some ["b"; "c"]).
Proof.
  split; [reflexivity|].
  apply (proj1 (empty_tail_is_a_candidate (createWordDict a_word_list) some_tlds
                  "a.b.c" "a" ["b"; "c"] eq_refl eq_refl eq_refl ltac:(cbn; lia)
                  ltac:(intros item Hin Hne Hinc; unfold some_tlds in Hin;
                        repeat (apply elem_of_cons in Hin; destruct Hin as [->|Hin]);
                        try reflexivity; try discriminate Hinc;
                        apply not_elem_of_nil in Hin; contradiction))).
  do 2 apply list_elem_of_further. apply list_elem_of_here.
Defined.

Lemma preposition_of_spec_sample :
  preposition_of [mkMatch 4 [Some "see you.you"; Some "see"];
                  mkMatch 20 [Some "to you.you"; Some "to"]]
  = Return 0%nat.
Proof.
  apply (preposition_of_spec
           [mkMatch 4 [Some "see you.you"; Some "see"];
            mkMatch 20 [Some "to you.you"; Some "to"]]).
  apply List.Forall_cons; [eexists; reflexivity|].
  apply List.Forall_cons; [eexists; reflexivity|].
  apply List.Forall_nil.
Defined.

Lemma string_flag_of_two_labels_sample :
  string_flag some_words Host.isNaN "x-y" ["zz"] "x-y.zz" = 1%nat.
Proof.
  apply (string_flag_of_two_labels some_words Host.isNaN "x-y" "zz" "x-y.zz").
  left. cbn. lia.
Defined.

Lemma detection_pass_hands_over_accepted_tokens_sample :
  exists arr,
    detection_pass some_words some_tlds Host.regex Host.RegExp Host.exec
      Host.matchAll Host.isNaN (fun _ => Host.answered 200 [])
      ["google.com"; "you.you"]
      [mkTextofURL "google.com" "from google.com to you.you";
       mkTextofURL "you.you" "from google.com to you.you"]
    = Return arr
    /\ map url arr = ["you.you"]
    /\ map url arr `sublist_of` ["google.com"; "you.you"]
    /\ Forall (fun e => accepted some_words some_tlds (url e)
                        /\ lookup_succeeded (Host.answered 200 [])) arr.
Proof.
  eexists. split; [vm_compute; reflexivity|]. split; [reflexivity|].
  apply (detection_pass_hands_over_accepted_tokens some_words some_tlds Host.regex
           Host.RegExp Host.exec Host.matchAll Host.isNaN
           (fun _ => Host.answered 200 [])
           ["google.com"; "you.you"]
           [mkTextofURL "google.com" "from google.com to you.you";
            mkTextofURL "you.you" "from google.com to you.you"]).
  vm_compute. reflexivity.
Defined.

Lemma click_without_styled_text_posts_sample :
  TweetButtonClicked some_words some_tlds Host.regex Host.RegExp Host.exec
    Host.matchAll Host.isNaN (fun _ => Host.answered 200 []) Host.Math_exp
    a_linear_json false
    [mkTextElement "hello you.you" [mkChild "" "hello"; mkChild "" "you.you"]]
  = Return (Some Posted).
Proof.
  apply (click_without_styled_text_posts some_words some_tlds Host.regex Host.RegExp
           Host.exec Host.matchAll Host.isNaN (fun _ => Host.answered 200 [])
           Host.Math_exp a_linear_json).
  apply List.Forall_cons; [| apply List.Forall_nil].
  apply List.Forall_cons; [reflexivity|].
  apply List.Forall_cons; [reflexivity|].
  apply List.Forall_nil.
Defined.

Lemma throwing_token_swallows_the_click_sample :
  TweetButtonClicked some_words some_tlds Host.regex Host.RegExp Host.exec
    Host.matchAll Host.isNaN (fun _ => Host.answered 200 []) Host.Math_exp
    a_linear_json false
    [mkTextElement "hello you.you"
       [mkChild "color: blue" "hello"; mkChild "color: blue" "you.you"]]
  = Throw TypeError
  /\ forall r,
       TweetButtonClicked some_words some_tlds Host.regex Host.RegExp Host.exec
         Host.matchAll Host.isNaN (fun _ => Host.answered 200 []) Host.Math_exp
         a_linear_json false
         [mkTextElement "hello you.you"
            [mkChild "color: blue" "hello"; mkChild "color: blue" "you.you"]]
       <> Return r.
Proof.
  split; [vm_compute; reflexivity|].
  apply (throwing_token_swallows_the_click some_words some_tlds Host.regex Host.RegExp
           Host.exec Host.matchAll Host.isNaN (fun _ => Host.answered 200 [])
           Host.Math_exp a_linear_json _ "hello" "hello you.you" TypeError).
  - eexists _, (mkChild "color: blue" "hello").
    split; [apply list_elem_of_here|]. split; [apply list_elem_of_here|].
    split; [discriminate|]. split; reflexivity.
  - reflexivity.
Defined.


Lemma createWordDict_splits_at_line_breaks_sample :
  createWordDict ("you" ++ String "013" (String "010" "it")) = ["you"; ""; "it"].
Proof.
  exact (eq_trans
           (proj1 (proj2 (proj2 createWordDict_splits_at_line_breaks)) "you" "it")
           eq_refl).
Defined.

Lemma Prefiltering_outcomes_sample :
  Prefiltering some_words some_tlds "#you.you" = Throw TypeError
  /\ Prefiltering some_words some_tlds "www.You.you"
     = Return (false, "", "www", Some ["you"; "you"]).
Proof.
  split.
  - apply (proj1 (Prefiltering_outcomes some_words some_tlds "#you.you")).
    reflexivity.
  - apply (proj1 (proj2 (Prefiltering_outcomes some_words some_tlds "www.You.you"))
             "www"); reflexivity.
Defined.

Lemma longest_tld_is_longest_sample :
  longest_tld some_tlds "co.uk" "uk" = "co.uk"
  /\ forall item,
       item ∈ some_tlds ->
       includes "co.uk" item = true -> includes item "uk" = true ->
       (String.length item <= 5)%nat.
Proof.
  split; [reflexivity|].
  exact (proj2 (longest_tld_is_longest some_tlds "co.uk" "uk")).
Defined.

Lemma feature_vectors_are_binary_sample :
  exists arr,
    detection_pass some_words some_tlds Host.regex Host.RegExp Host.exec
      Host.matchAll Host.isNaN (fun _ => Host.answered 200 [])
      ["you.you"] a_message
    = Return arr
    /\ length arr = 1%nat
    /\ Forall (fun e => binary_vector (feature_vector e)) arr.
Proof.
  eexists. split; [vm_compute; reflexivity|]. split; [reflexivity|].
  apply (proj2 (feature_vectors_are_binary some_words some_tlds Host.regex Host.RegExp
                  Host.exec Host.matchAll Host.isNaN
                  (fun _ => Host.answered 200 []))
           ["you.you"] a_message).
  vm_compute. reflexivity.
Defined.

(** A block with the same address twice, once with its scheme. *)
Definition a_block : TextElement :=
  mkTextElement "see https://you.you and you.you"
    [mkChild "color: blue" "https://you.you"; mkChild "" "and";
     mkChild "color: blue" "you.you"].

Lemma collect_urls_keeps_the_arrays_aligned_sample :
  collect_urls [a_block]
  = (["you.you"], [mkTextofURL "you.you" "see https://you.you and you.you"])
  /\ NoDup (collect_urls [a_block]).1
  /\ map text_url (collect_urls [a_block]).2 = (collect_urls [a_block]).1.
Proof.
  split; [reflexivity|].
  split.
  - exact (proj1 (collect_urls_keeps_the_arrays_aligned [a_block])).
  - exact (proj1 (proj2 (collect_urls_keeps_the_arrays_aligned [a_block]))).
Defined.

Local Close Scope string_scope.
Local Open Scope Q_scope.



Local Close Scope Q_scope.
Local Open Scope string_scope.

Lemma a_warning_names_labelled_tokens_sample :
  TweetButtonClicked some_words some_tlds Host.regex Host.RegExp Host.exec
    Host.matchAll Host.isNaN (fun _ => Host.answered 200 []) Host.Math_exp
    a_linear_json false [a_block]
  = Return (Some (Warning
                    "WARNING! <br><br> You are about to post following link(s): you.you "))
  /\ exists typo_arr,
      typo_arr <> []
      /\ "WARNING! <br><br> You are about to post following link(s): you.you "
         = "WARNING! <br><br> You are about to post following link(s): "
           ++ alertText typo_arr
      /\ Forall (fun e =>
                   (exists text_, token_of [a_block] (url e) text_)
                   /\ accepted some_words some_tlds (url e)
                   /\ lookup_succeeded (Host.answered 200 [])
                   /\ predictOne (snd (fromJSON Host.Math_exp new_SVM a_linear_json))
                                 (feature_vector e)
                      = Return (Fin 1))
                typo_arr.
Proof.
  split; [vm_compute; reflexivity|].
  apply (a_warning_names_labelled_tokens some_words some_tlds Host.regex Host.RegExp
           Host.exec Host.matchAll Host.isNaN (fun _ => Host.answered 200 [])
           Host.Math_exp a_linear_json [a_block]).
  vm_compute. reflexivity.
Defined.
